(** * Block validation, gas-limit adjustment and the remote-work API

  A shallow embedding of three pieces of the node:

  - [core.CalcGasLimit]: the gas limit of the next block, in Go [uint64]
    arithmetic (wrap-around modulo 2^64 written out over [Z]);
  - [core.BlockValidator.ValidateBody] and [ValidateState]: a sequential
    prefix followed by three checks run on goroutines whose results are
    read from a buffered channel, first failure wins;
  - [inihash.API]: [GetWork], [SubmitWork] and [SubmitHashrate], whose
    hand-offs to the sealer loop are Go [select] statements. *)

From Stdlib Require Import ZArith Lia List Bool Permutation.
From stdpp Require Import base decidable option list numbers strings.

Local Open Scope Z_scope.

(** ** Go's [uint64] *)

Module U64.

Definition modulus : Z := 2 ^ 64.
Definition max_uint64 : Z := modulus - 1.

(** The values a [uint64] variable can hold. *)
Definition in_range (x : Z) : Prop := 0 <= x < modulus.

Definition wrap (x : Z) : Z := x mod modulus.

Definition add (x y : Z) : Z := wrap (x + y).
Definition sub (x y : Z) : Z := wrap (x - y).
(** Division of unsigned operands truncates; the divisor is a non-zero
    constant wherever the code divides. *)
Definition div (x y : Z) : Z := x / y.

End U64.

(** ** Headers and blocks (the fields the validator reads) *)

Section Types.

Variables Hash Bloom Transaction : Type.

Record Header : Type := mkHeader {
  ParentHash  : Hash;
  UncleHash   : Hash;
  Root        : Hash;
  TxHash      : Hash;
  ReceiptHash : Hash;
  HBloom      : Bloom;
  Number      : Z;
  GasLimit    : Z;
  GasUsed     : Z
}.

Record Block : Type := mkBlock {
  header       : Header;
  uncles       : list Header;
  transactions : list Transaction
}.

(** [block.NumberU64()], [block.GasLimit()], [block.GasUsed()],
    [block.ParentHash()] read the header. [Number] is a [*big.Int], never
    negative; [NumberU64] keeps its low 64 bits. *)
Definition BNumberU64 (b : Block) : Z := U64.wrap (Number (header b)).
Definition BGasLimit (b : Block) : Z := GasLimit (header b).
Definition BGasUsed (b : Block) : Z := GasUsed (header b).
Definition BParentHash (b : Block) : Hash := ParentHash (header b).

End Types.

Arguments mkHeader {Hash Bloom}.
Arguments ParentHash {Hash Bloom}.
Arguments UncleHash {Hash Bloom}.
Arguments Root {Hash Bloom}.
Arguments TxHash {Hash Bloom}.
Arguments ReceiptHash {Hash Bloom}.
Arguments HBloom {Hash Bloom}.
Arguments Number {Hash Bloom}.
Arguments GasLimit {Hash Bloom}.
Arguments GasUsed {Hash Bloom}.
Arguments mkBlock {Hash Bloom Transaction}.
Arguments header {Hash Bloom Transaction}.
Arguments uncles {Hash Bloom Transaction}.
Arguments transactions {Hash Bloom Transaction}.
Arguments BNumberU64 {Hash Bloom Transaction}.
Arguments BGasLimit {Hash Bloom Transaction}.
Arguments BGasUsed {Hash Bloom Transaction}.
Arguments BParentHash {Hash Bloom Transaction}.

(** ** [CalcGasLimit] *)

Section GasLimit.

(** [params.GasLimitBoundDivisor] and [params.MinGasLimit]: protocol
    constants of type [uint64], declared in the [params] package. *)
Variables GasLimitBoundDivisor MinGasLimit : Z.

Context {Hash Bloom Transaction : Type}.
Abbreviation Block := (Block Hash Bloom Transaction).

(** [contrib := (parent.GasUsed() + parent.GasUsed()/2) / params.GasLimitBoundDivisor] *)
Definition contrib (parentGasUsed : Z) : Z :=
  U64.div (U64.add parentGasUsed (U64.div parentGasUsed 2)) GasLimitBoundDivisor.

(** [decay := parent.GasLimit()/params.GasLimitBoundDivisor - 1] *)
Definition decay (parentGasLimit : Z) : Z :=
  U64.sub (U64.div parentGasLimit GasLimitBoundDivisor) 1.

Definition CalcGasLimit (parent : Block) (gasFloor gasCeil : Z) : Z :=
  let contrib := contrib (BGasUsed parent) in
  let decay := decay (BGasLimit parent) in
  let limit := U64.add (U64.sub (BGasLimit parent) decay) contrib in
  let limit := if limit <? MinGasLimit then MinGasLimit else limit in
  if limit <? gasFloor then
    let limit := U64.add (BGasLimit parent) decay in
    if limit >? gasFloor then gasFloor else limit
  else if limit >? gasCeil then
    let limit := U64.sub (BGasLimit parent) decay in
    if limit <? gasCeil then gasCeil else limit
  else limit.

(** The six steps of the written algorithm, each read literally:
    "floored at" is a lower clamp ([Z.max]), "capped at" an upper clamp
    ([Z.min]); the arithmetic is the same unsigned 64-bit arithmetic. *)
Definition sixStep (parentGasUsed parentGasLimit floor ceiling : Z) : Z :=
  let contribution :=
    U64.div (U64.add parentGasUsed (U64.div parentGasUsed 2)) GasLimitBoundDivisor in
  let decay := U64.sub (U64.div parentGasLimit GasLimitBoundDivisor) 1 in
  let limit :=
    Z.max (U64.add (U64.sub parentGasLimit decay) contribution) MinGasLimit in
  if limit <? floor then Z.min (U64.add parentGasLimit decay) floor
  else if ceiling <? limit then Z.min (U64.sub parentGasLimit decay) ceiling
  else limit.

(** The same six steps with step 5 as the code has it: the recomputed
    value is raised to the ceiling when it falls below it. *)
Definition sixStepRaised (parentGasUsed parentGasLimit floor ceiling : Z) : Z :=
  let contribution :=
    U64.div (U64.add parentGasUsed (U64.div parentGasUsed 2)) GasLimitBoundDivisor in
  let decay := U64.sub (U64.div parentGasLimit GasLimitBoundDivisor) 1 in
  let limit :=
    Z.max (U64.add (U64.sub parentGasLimit decay) contribution) MinGasLimit in
  if limit <? floor then Z.min (U64.add parentGasLimit decay) floor
  else if ceiling <? limit then Z.max (U64.sub parentGasLimit decay) ceiling
  else limit.

End GasLimit.

(** A block carrying only the two header fields [CalcGasLimit] reads. *)
Definition gasBlock (parentGasUsed parentGasLimit : Z) : Block Z Z unit :=
  mkBlock (mkHeader 0 0 0 0 0 0 0 parentGasLimit parentGasUsed) [] [].


(** ** The block validator *)

Section Validator.

Context {Hash Bloom Transaction Receipt StateDB ChainConfig : Type}.
Context `{EqDecision Hash} `{EqDecision Bloom}.

Abbreviation Header := (Header Hash Bloom).
Abbreviation Block := (Block Hash Bloom Transaction).

(** The error values the validator can hand back. The [fmt.Errorf] errors
    keep the two values their message is formatted from; an engine is free
    to return any error value, [ErrEngine] stands for those of its own. *)
Inductive error : Type :=
| ErrKnownBlock
| ErrUnknownAncestor
| ErrPrunedAncestor
| ErrUncleRootMismatch (have want : Hash)
| ErrTxRootMismatch (have want : Hash)
| ErrInvalidGasUsed (remote local : Z)
| ErrInvalidBloom (remote local : Bloom)
| ErrInvalidReceiptRoot (remote local : Hash)
| ErrInvalidMerkleRoot (remote local : Hash)
| ErrEngine (code : nat).

(** [*BlockChain], as far as the validator queries it. The chain is read
    only and is held fixed for the duration of one call. *)
Record BlockChain : Type := mkBlockChain {
  HasBlockAndState : Hash -> Z -> bool;
  HasBlock         : Hash -> Z -> bool
}.

(** [consensus.Engine], as far as the validator calls it; [None] is [nil]. *)
Record Engine : Type := mkEngine {
  VerifyUncles : BlockChain -> Block -> option error
}.

Record BlockValidator : Type := mkBlockValidator {
  config : ChainConfig;
  bc     : BlockChain;
  engine : Engine
}.

(** Hashing collaborators, consumed as pure functions: [block.Hash()],
    [types.CalcUncleHash], [types.DeriveSha] over a fresh stack trie (on
    transactions and on receipts), [types.CreateBloom],
    [statedb.IntermediateRoot] and [config.IsEIP158]. *)
Variable BlockHash : Block -> Hash.
Variable CalcUncleHash : list Header -> Hash.
Variable DeriveShaTxs : list Transaction -> Hash.
Variable DeriveShaReceipts : list Receipt -> Hash.
Variable CreateBloom : list Receipt -> Bloom.
Variable IntermediateRoot : StateDB -> bool -> Hash.
Variable IsEIP158 : ChainConfig -> Z -> bool.

(** *** Goroutines writing to a buffered result channel

    [validateRes] has room for every result, so no send blocks; [sched]
    lists the task indices in the order in which their goroutines deliver.
    A schedule is a permutation of the task indices. *)
Definition arrivals (sched : list nat) (validateFuns : list (unit -> option error))
  : list (option error) :=
  map (fun i => match nth_error validateFuns i with
                | Some f => f tt
                | None => None
                end) sched.

Definition is_schedule (n : nat) (sched : list nat) : Prop :=
  Permutation sched (seq 0 n).

(** [for i := 0; i < len(validateFuns); i++ { r := <-validateRes; if r != nil { return r } }; return nil]

    [validateRes] lists what is delivered, in order. Under a schedule there
    are as many deliveries as goroutines, so the loop never waits on an
    empty channel. *)
Fixpoint recvLoop (n : nat) (validateRes : list (option error)) : option error :=
  match n with
  | O => None
  | S n' =>
      match validateRes with
      | [] => None
      | r :: rest =>
          match r with
          | Some e => Some e
          | None => recvLoop n' rest
          end
      end
  end.

Definition ValidateBody (v : BlockValidator) (block : Block) (sched : list nat)
  : option error :=
  if HasBlockAndState (bc v) (BlockHash block) (BNumberU64 block) then Some ErrKnownBlock
  else
    let header := header block in
    match VerifyUncles (engine v) (bc v) block with
    | Some err => Some err
    | None =>
        let hash := CalcUncleHash (uncles block) in
        if decide (hash <> UncleHash header) then
          Some (ErrUncleRootMismatch hash (UncleHash header))
        else
          let validateFuns : list (unit -> option error) :=
            [ (fun _ =>
                 if HasBlockAndState (bc v) (BlockHash block) (BNumberU64 block)
                 then Some ErrKnownBlock
                 else None);
              (fun _ =>
                 let hash := DeriveShaTxs (transactions block) in
                 if decide (hash <> TxHash header)
                 then Some (ErrTxRootMismatch hash (TxHash header))
                 else None);
              (fun _ =>
                 if negb (HasBlockAndState (bc v) (BParentHash block)
                            (U64.sub (BNumberU64 block) 1))
                 then
                   if negb (HasBlock (bc v) (BParentHash block)
                              (U64.sub (BNumberU64 block) 1))
                   then Some ErrUnknownAncestor
                   else Some ErrPrunedAncestor
                 else None) ] in
          recvLoop (length validateFuns) (arrivals sched validateFuns)
    end.

Definition ValidateState (v : BlockValidator) (block : Block) (statedb : StateDB)
    (receipts : list Receipt) (usedGas : Z) (sched : list nat) : option error :=
  let header := header block in
  if decide (BGasUsed block <> usedGas) then
    Some (ErrInvalidGasUsed (BGasUsed block) usedGas)
  else
    let validateFuns : list (unit -> option error) :=
      [ (fun _ =>
           let rbloom := CreateBloom receipts in
           if decide (rbloom <> HBloom header)
           then Some (ErrInvalidBloom (HBloom header) rbloom)
           else None);
        (fun _ =>
           let receiptSha := DeriveShaReceipts receipts in
           if decide (receiptSha <> ReceiptHash header)
           then Some (ErrInvalidReceiptRoot (ReceiptHash header) receiptSha)
           else None);
        (fun _ =>
           let root := IntermediateRoot statedb (IsEIP158 (config v) (Number header)) in
           if decide (Root header <> root)
           then Some (ErrInvalidMerkleRoot (Root header) root)
           else None) ] in
    recvLoop (length validateFuns) (arrivals sched validateFuns).

End Validator.

(** ** The remote-work API of the sealer *)

Module Inihash.

(** An [error] built by [errors.New]; [option error] is Go's [error] with
    [None] for [nil]. *)
Inductive error : Type := ErrorString (s : string).

Definition errEthashStopped : error := ErrorString "inihash stopped".

(** [[5]string] and its zero value. *)
Definition Work : Type := (string * string * string * string * string)%type.
Definition zeroWork : Work :=
  (EmptyString, EmptyString, EmptyString, EmptyString, EmptyString).

(** The one-shot reply channels a call makes for itself: [workCh], [errc]
    and [done], each with room for one value. *)
Inductive rchan : Type -> Type :=
| workCh : rchan Work
| errc : rchan (option error)
| done : rchan unit.

(** The requests handed to the sealer loop, each with its reply channels. *)
Record sealWork : Type := mkSealWork {
  sw_errc : rchan (option error);
  sw_res  : rchan Work
}.

Record mineResult : Type := mkMineResult {
  mr_nonce : Z;
  mr_hash  : Z;
  mr_errc  : rchan (option error)
}.

Record hashrate : Type := mkHashrate {
  hr_done : rchan unit;
  hr_rate : Z;
  hr_id   : Z
}.

(** The sealer instance behind [inihash.remote]; only its identity matters. *)
Inductive remoteSealer : Type := RemoteSealer (id : nat).

Record Inihash : Type := mkInihash { remote : option remoteSealer }.
Record API : Type := mkAPI { inihash : Inihash }.

(** Channels, indexed by the type of the values they carry. [exitCh] is
    closed on shutdown, after which a receive on it is always ready. *)
Inductive chan : Type -> Type :=
| fetchWorkCh (r : remoteSealer) : chan sealWork
| submitWorkCh (r : remoteSealer) : chan mineResult
| submitRateCh (r : remoteSealer) : chan hashrate
| exitCh (r : remoteSealer) : chan unit
| reply {T : Type} (c : rchan T) : chan T.

(** A [select] statement is a list of cases, each a send or a receive with
    its body; a bare receive [<-c] is a [select] with one case. *)
Inductive scase (P : Type) : Type :=
| SendCase {T : Type} (c : chan T) (v : T) (body : P)
| RecvCase {T : Type} (c : chan T) (body : T -> P).

Arguments SendCase {P T}.
Arguments RecvCase {P T}.

#[local] Set Warnings "-register-all".

Inductive proc (R : Type) : Type :=
| Return (r : R)
| Select (cases : list (scase (proc R))).

Arguments Return {R}.
Arguments Select {R}.

(** What the rest of the program does at one [select]: the case with index
    [fired] proceeds, and a receive on channel [c] yields [deliver _ c]. *)
Record comm : Type := Fired {
  fired   : nat;
  deliver : forall T : Type, chan T -> T
}.

Inductive outcome (R : Type) : Type :=
| Returned (r : R)
| Blocked.

Arguments Returned {R}.
Arguments Blocked {R}.

(** Running a call against the communications that happen, in order. When
    none is left, or the one offered is not among the cases of the current
    [select], the call stays blocked there. *)
Fixpoint run {R : Type} (env : list comm) (p : proc R) : outcome R :=
  match p with
  | Return r => Returned r
  | Select cases =>
      match env with
      | [] => Blocked
      | e :: env' =>
          match nth_error cases (fired e) with
          | None => Blocked
          | Some (SendCase c v body) => run env' body
          | Some (RecvCase c body) => run env' (body (deliver e _ c))
          end
      end
  end.

(** A case that receives from the shutdown channel. *)
Definition is_exit_case {P : Type} (c : scase P) : bool :=
  match c with
  | RecvCase (exitCh _) _ => true
  | _ => false
  end.

(** Every [select] the call can reach has a case on the shutdown channel. *)
Inductive races_shutdown {R : Type} : proc R -> Prop :=
| races_return r : races_shutdown (Return r)
| races_select cases :
    existsb is_exit_case cases = true ->
    (forall c, In c cases -> case_races c) ->
    races_shutdown (Select cases)
with case_races {R : Type} : scase (proc R) -> Prop :=
| races_send T (c : chan T) v body :
    races_shutdown body -> case_races (SendCase c v body)
| races_recv T (c : chan T) body :
    (forall v, races_shutdown (body v)) -> case_races (RecvCase c body).

Definition GetWork (api : API) : proc (Work * option error) :=
  match remote (inihash api) with
  | None => Return (zeroWork, Some (ErrorString "not supported"))
  | Some r =>
      Select
        [ SendCase (fetchWorkCh r) (mkSealWork errc workCh)
            (Select
               [ RecvCase (reply workCh) (fun work => Return (work, None));
                 RecvCase (reply errc) (fun err => Return (zeroWork, err)) ]);
          RecvCase (exitCh r) (fun _ => Return (zeroWork, Some errEthashStopped)) ]
  end.

Definition SubmitWork (api : API) (nonce hash : Z) : proc bool :=
  match remote (inihash api) with
  | None => Return false
  | Some r =>
      Select
        [ SendCase (submitWorkCh r) (mkMineResult nonce hash errc)
            (Select
               [ RecvCase (reply errc) (fun err =>
                   Return (match err with None => true | Some _ => false end)) ]);
          RecvCase (exitCh r) (fun _ => Return false) ]
  end.

Definition SubmitHashrate (api : API) (rate id : Z) : proc bool :=
  match remote (inihash api) with
  | None => Return false
  | Some r =>
      Select
        [ SendCase (submitRateCh r) (mkHashrate done rate id)
            (Select [ RecvCase (reply done) (fun _ => Return true) ]);
          RecvCase (exitCh r) (fun _ => Return false) ]
  end.

End Inihash.


(** ** Predicates of the specification *)

Section ValidatorSpec.

Context {Hash Bloom Transaction Receipt StateDB ChainConfig : Type}.
Context `{EqDecision Hash} `{EqDecision Bloom}.
Variable BlockHash : Block Hash Bloom Transaction -> Hash.
Variable CalcUncleHash : list (Header Hash Bloom) -> Hash.
Variable DeriveShaTxs : list Transaction -> Hash.

Implicit Types v : @BlockValidator Hash Bloom Transaction ChainConfig.
Implicit Types block : Block Hash Bloom Transaction.

(** The block itself is known with state. *)
Definition known v block : bool :=
  HasBlockAndState (bc v) (BlockHash block) (BNumberU64 block).

(** The parent is known with state, or known at all. *)
Definition parentWithState v block : bool :=
  HasBlockAndState (bc v) (BParentHash block) (U64.sub (BNumberU64 block) 1).

Definition parentKnown v block : bool :=
  HasBlock (bc v) (BParentHash block) (U64.sub (BNumberU64 block) 1).

(** [e] is the error of a condition of [ValidateBody] that [block] violates. *)
Definition body_violation v block (e : @error Hash Bloom) : Prop :=
  (e = ErrKnownBlock /\ known v block = true) \/
  VerifyUncles (engine v) (bc v) block = Some e \/
  (e = ErrUncleRootMismatch (CalcUncleHash (uncles block)) (UncleHash (header block))
   /\ CalcUncleHash (uncles block) <> UncleHash (header block)) \/
  (e = ErrTxRootMismatch (DeriveShaTxs (transactions block)) (TxHash (header block))
   /\ DeriveShaTxs (transactions block) <> TxHash (header block)) \/
  (e = ErrUnknownAncestor /\ parentWithState v block = false
   /\ parentKnown v block = false) \/
  (e = ErrPrunedAncestor /\ parentWithState v block = false
   /\ parentKnown v block = true).

(** What the second and third goroutine of [ValidateBody] deliver. *)
Definition txRootCheck block : option (@error Hash Bloom) :=
  if decide (DeriveShaTxs (transactions block) <> TxHash (header block))
  then Some (ErrTxRootMismatch (DeriveShaTxs (transactions block)) (TxHash (header block)))
  else None.

Definition ancestorCheck v block : option (@error Hash Bloom) :=
  if negb (parentWithState v block) then
    if negb (parentKnown v block) then Some ErrUnknownAncestor
    else Some ErrPrunedAncestor
  else None.

(** [e] comes from one of the three checks run on goroutines. *)
Definition task_error (e : @error Hash Bloom) : Prop :=
  e = ErrKnownBlock \/
  (exists have want, e = ErrTxRootMismatch have want) \/
  e = ErrUnknownAncestor \/
  e = ErrPrunedAncestor.

End ValidatorSpec.

(** ** Sample chains, engines and blocks

    Hashes and blooms are integers; the stand-in root of a sequence is its
    length, so a body root matches a header field exactly when the field
    holds the number of elements. *)

Module Sample.

Definition blockHash (b : Block Z Z Z) : Z := 7.
Definition uncleHash (us : list (Header Z Z)) : Z := Z.of_nat (length us).
Definition txHash (txs : list Z) : Z := Z.of_nat (length txs).

(** Block number 5 with parent hash 3 and the given declared roots. *)
Definition blockWith (uncleRoot txRoot : Z) : Block Z Z Z :=
  mkBlock (mkHeader 3 uncleRoot 0 txRoot 0 0 5 10000000 21000) [] [].

(** The parent (hash 3, number 4) is stored with its state. *)
Definition chainReady : @BlockChain Z :=
  mkBlockChain (fun h n => (h =? 3) && (n =? 4)) (fun h n => (h =? 3) && (n =? 4)).

(** The parent is stored, its state is not. *)
Definition chainPruned : @BlockChain Z :=
  mkBlockChain (fun _ _ => false) (fun h n => (h =? 3) && (n =? 4)).

(** Nothing is stored. *)
Definition chainEmpty : @BlockChain Z :=
  mkBlockChain (fun _ _ => false) (fun _ _ => false).

(** The block itself (hash 7, number 5) is already stored with state. *)
Definition chainKnown : @BlockChain Z :=
  mkBlockChain (fun h n => (h =? 7) && (n =? 5)) (fun h n => (h =? 7) && (n =? 5)).

Definition engineOk : @Engine Z Z Z := mkEngine (fun _ _ => None).
Definition engineFail : @Engine Z Z Z := mkEngine (fun _ _ => Some (ErrEngine 1)).

Definition validator (chain : @BlockChain Z) (eng : @Engine Z Z Z)
  : @BlockValidator Z Z Z unit :=
  mkBlockValidator tt chain eng.

Definition validateBody (v : @BlockValidator Z Z Z unit) (block : Block Z Z Z)
    (sched : list nat) : option (@error Z Z) :=
  ValidateBody blockHash uncleHash txHash v block sched.

(** Stand-ins for the receipt root, the bloom and the state root; the
    state database is the root it would report under EIP-158 rules. *)
Definition receiptHash (rs : list Z) : Z := Z.of_nat (length rs).
Definition createBloom (rs : list Z) : Z := fold_right Z.lor 0 rs.
Definition intermediateRoot (statedb : Z) (deleteEmptyObjects : bool) : Z :=
  if deleteEmptyObjects then statedb else statedb + 1.
Definition isEIP158 (_ : unit) (num : Z) : bool := 3 <=? num.

(** Block number 5 declaring state root, receipt root, bloom and gas used. *)
Definition executedBlock (root receiptRoot bloom gasUsed : Z) : Block Z Z Z :=
  mkBlock (mkHeader 3 0 root 0 receiptRoot bloom 5 10000000 gasUsed) [] [].

Definition validateState (v : @BlockValidator Z Z Z unit) (block : Block Z Z Z)
    (statedb : Z) (receipts : list Z) (usedGas : Z) (sched : list nat)
  : option (@error Z Z) :=
  ValidateState receiptHash createBloom intermediateRoot isEIP158
    v block statedb receipts usedGas sched.

End Sample.

(** ** Predicates of the specification of the API *)

Module InihashSpec.

Import Inihash.

(** The call's current [select] has a case on the shutdown channel. *)
Definition has_exit {R : Type} (p : proc R) : bool :=
  match p with
  | Select cases => existsb is_exit_case cases
  | Return _ => false
  end.

(** The body entered once the request of the first [select] is handed over. *)
Definition after_send {R : Type} (p : proc R) : option (proc R) :=
  match p with
  | Select (SendCase _ _ body :: _) => Some body
  | _ => None
  end.

(** The outcomes the written contract of [GetWork] allows: a work package,
    the unsupported error when remote mining is disabled, or the stopped
    error. *)
Definition listed_outcome (api : API) (r : Work * option error) : Prop :=
  (exists w, r = (w, None)) \/
  (remote (inihash api) = None /\ r = (zeroWork, Some (ErrorString "not supported"))) \/
  r = (zeroWork, Some errEthashStopped).

(** An API whose remote sealer is running, and one without remote mining. *)
Definition apiRemote : API := mkAPI (mkInihash (Some (RemoteSealer 0))).
Definition apiLocal : API := mkAPI (mkInihash None).

(** A sealer loop that has no block to mine yet answers a work request on
    its error conduit. *)
Definition errNoMiningWork : error := ErrorString "no mining work available yet".

Definition samplePackage : Work :=
  ("0x1234"%string, "0x5678"%string, "0xffff"%string, "0x5"%string, "inihash"%string).

(** Values delivered on receives: [answer] on [errc], [samplePackage] on
    [workCh]; sends carry what the call gives them. *)
Definition delivering (answer : option error) (T : Type) (c : chan T) : T :=
  match c in chan T return T with
  | fetchWorkCh _ => mkSealWork errc workCh
  | submitWorkCh _ => mkMineResult 0 0 errc
  | submitRateCh _ => mkHashrate done 0 0
  | exitCh _ => tt
  | reply rc =>
      match rc in rchan T return T with
      | workCh => samplePackage
      | errc => answer
      | done => tt
      end
  end.

(** The case with index [i] fires. *)
Definition fires (i : nat) (answer : option error) : comm := Fired i (delivering answer).

End InihashSpec.

(** ** The validator's constructor *)

Section ValidatorConstructor.

Context {Hash Bloom Transaction ChainConfig : Type}.

(** [NewBlockValidator] stores its three arguments. *)
Definition NewBlockValidator (config : ChainConfig) (blockchain : @BlockChain Hash)
    (engine : @Engine Hash Bloom Transaction)
  : @BlockValidator Hash Bloom Transaction ChainConfig :=
  mkBlockValidator config blockchain engine.

End ValidatorConstructor.

(** ** Public DNS node lists *)

Module Params.

Definition dnsPrefix : string :=
  "enrtree://AKA3AM6LPBYEUDMVNU3BSVQJ5AD45Y7YPOHJLEF6W26QOE4VTUDPE@".

Section DNS.

(** [common.Hash] with Go's [==], and [MainnetGenesisHash], declared with
    the chain configurations of the [params] package. *)
Context {Hash : Type} `{EqDecision Hash}.
Variable MainnetGenesisHash : Hash.

(** [+] on strings associates to the left. *)
Definition KnownDNSNetwork (genesis : Hash) (protocol : string) : string :=
  if decide (genesis = MainnetGenesisHash) then
    let net := "mainnet"%string in
    String.append
      (String.append
         (String.append (String.append dnsPrefix protocol) ".") net)
      ".ethdisco.net"
  else EmptyString.

End DNS.

End Params.

(** * Properties *)

(** ** Unsigned arithmetic *)

Lemma modulus_pos : 0 < U64.modulus.
Proof. reflexivity. Qed.

Lemma wrap_range x : U64.in_range (U64.wrap x).
Proof. unfold U64.in_range, U64.wrap. apply Z.mod_pos_bound, modulus_pos. Qed.

Lemma wrap_small x : 0 <= x < U64.modulus -> U64.wrap x = x.
Proof. unfold U64.wrap. intros Hx. now apply Z.mod_small. Qed.

(** One subtraction below zero lands one modulus higher. *)
Lemma wrap_borrow x : - U64.modulus <= x < 0 -> U64.wrap x = x + U64.modulus.
Proof.
  unfold U64.wrap. intros Hx.
  rewrite <- (Z.mod_add x 1 U64.modulus) by (pose proof modulus_pos; lia).
  apply Z.mod_small. lia.
Qed.

(** ** [CalcGasLimit] *)

Section GasLimitFacts.

Variables GasLimitBoundDivisor MinGasLimit : Z.
Context {Hash Bloom Transaction : Type}.
Implicit Types parent : Block Hash Bloom Transaction.

Local Abbreviation calc := (CalcGasLimit GasLimitBoundDivisor MinGasLimit).
Local Abbreviation decayOf := (decay GasLimitBoundDivisor).
Local Abbreviation contribOf := (contrib GasLimitBoundDivisor).

(** The nested [if]s of the code as clamps. *)
Lemma CalcGasLimit_clamps parent gasFloor gasCeil :
  let raw := U64.add (U64.sub (BGasLimit parent) (decayOf (BGasLimit parent)))
                     (contribOf (BGasUsed parent)) in
  let limit := Z.max raw MinGasLimit in
  calc parent gasFloor gasCeil =
    if limit <? gasFloor
    then Z.min (U64.add (BGasLimit parent) (decayOf (BGasLimit parent))) gasFloor
    else if gasCeil <? limit
         then Z.max (U64.sub (BGasLimit parent) (decayOf (BGasLimit parent))) gasCeil
         else limit.
Proof.
  unfold CalcGasLimit. cbv zeta.
  generalize (U64.add (U64.sub (BGasLimit parent) (decayOf (BGasLimit parent)))
                      (contribOf (BGasUsed parent))).
  generalize (U64.add (BGasLimit parent) (decayOf (BGasLimit parent))).
  generalize (U64.sub (BGasLimit parent) (decayOf (BGasLimit parent))).
  intros down up raw.
  rewrite !Z.gtb_ltb.
  destruct (Z.ltb_spec raw MinGasLimit) as [Hm | Hm].
  - replace (Z.max raw MinGasLimit) with MinGasLimit by lia.
    destruct (Z.ltb_spec MinGasLimit gasFloor).
    + destruct (Z.ltb_spec gasFloor up); lia.
    + destruct (Z.ltb_spec gasCeil MinGasLimit); [|reflexivity].
      destruct (Z.ltb_spec down gasCeil); lia.
  - replace (Z.max raw MinGasLimit) with raw by lia.
    destruct (Z.ltb_spec raw gasFloor).
    + destruct (Z.ltb_spec gasFloor up); lia.
    + destruct (Z.ltb_spec gasCeil raw); [|reflexivity].
      destruct (Z.ltb_spec down gasCeil); lia.
Qed.

(** When the parent limit is below the divisor the quotient is zero and
    [decay] wraps to the largest [uint64]. *)
Lemma decay_wraps parentGasLimit :
  0 <= parentGasLimit < GasLimitBoundDivisor ->
  decayOf parentGasLimit = U64.max_uint64.
Proof.
  intros H. unfold decay, U64.div. rewrite Z.div_small by exact H. reflexivity.
Qed.

(** From the divisor upwards [decay] is the plain quotient minus one. *)
Lemma decay_plain parentGasLimit :
  0 < GasLimitBoundDivisor <= parentGasLimit ->
  parentGasLimit < U64.modulus ->
  decayOf parentGasLimit = parentGasLimit / GasLimitBoundDivisor - 1 /\
  0 <= decayOf parentGasLimit < parentGasLimit.
Proof.
  intros [Hd Hle] Hhi. unfold decay, U64.sub, U64.div.
  assert (1 <= parentGasLimit / GasLimitBoundDivisor).
  { apply Z.div_le_lower_bound; lia. }
  assert (parentGasLimit / GasLimitBoundDivisor <= parentGasLimit).
  { apply Z.div_le_upper_bound; nia. }
  rewrite wrap_small by lia. lia.
Qed.

End GasLimitFacts.

(** C2 (as written, refuted). With a parent limit of 20,000,000, no gas
    used, divisor 1024, floor 8,000,000 and ceiling 12,000,000 the code
    returns 19,980,470 (the parent limit less the decay), while the six
    written steps, whose step 5 caps the recomputed value at the ceiling,
    give 12,000,000. *)
Lemma CalcGasLimit_not_capped_at_ceiling :
  CalcGasLimit 1024 5000 (gasBlock 0 20000000) 8000000 12000000 = 19980470 /\
  sixStep 1024 5000 0 20000000 8000000 12000000 = 12000000 /\
  CalcGasLimit 1024 5000 (gasBlock 0 20000000) 8000000 12000000 <>
    sixStep 1024 5000 0 20000000 8000000 12000000.
Proof. repeat split. vm_compute. discriminate. Qed.

(** C2 (amended). For every input, [CalcGasLimit] returns the value of the
    six steps in unsigned 64-bit arithmetic and in the written order, where
    step 5 raises [parentGasLimit - decay] to the ceiling when it falls
    below it instead of capping it. *)
Theorem CalcGasLimit_six_steps
    (GasLimitBoundDivisor MinGasLimit : Z) {Hash Bloom Transaction : Type}
    (parent : Block Hash Bloom Transaction) (gasFloor gasCeil : Z) :
  CalcGasLimit GasLimitBoundDivisor MinGasLimit parent gasFloor gasCeil =
  sixStepRaised GasLimitBoundDivisor MinGasLimit
    (BGasUsed parent) (BGasLimit parent) gasFloor gasCeil.
Proof.
  rewrite CalcGasLimit_clamps. reflexivity.
Qed.

(** Steps 1 to 4 and 6 are as the code has them: the written algorithm and
    the code agree whenever the ceiling branch is not taken. *)
Lemma CalcGasLimit_sixStep_below_ceiling
    (GasLimitBoundDivisor MinGasLimit : Z) {Hash Bloom Transaction : Type}
    (parent : Block Hash Bloom Transaction) (gasFloor gasCeil : Z) :
  Z.max (U64.add (U64.sub (BGasLimit parent)
                    (decay GasLimitBoundDivisor (BGasLimit parent)))
           (contrib GasLimitBoundDivisor (BGasUsed parent))) MinGasLimit <= gasCeil ->
  CalcGasLimit GasLimitBoundDivisor MinGasLimit parent gasFloor gasCeil =
  sixStep GasLimitBoundDivisor MinGasLimit
    (BGasUsed parent) (BGasLimit parent) gasFloor gasCeil.
Proof.
  intros Hle. rewrite CalcGasLimit_clamps. unfold sixStep, contrib, decay in *.
  cbv zeta.
  match goal with |- context [?l <? gasFloor] => destruct (Z.ltb_spec l gasFloor) end;
    [reflexivity|].
  match goal with |- context [gasCeil <? ?l] => destruct (Z.ltb_spec gasCeil l) end;
    [lia | reflexivity].
Qed.

(** C7. Parent limit 10,000,000, parent gas used 9,000,000, divisor 1024,
    floor 8,000,000, ceiling 12,000,000: the contribution is 13,183, the
    decay 9,764, the intermediate limit 10,003,419, and that is the value
    returned, for any minimum gas limit it does not fall below. *)
Theorem CalcGasLimit_concrete
    (MinGasLimit : Z) {Hash Bloom Transaction : Type}
    (parent : Block Hash Bloom Transaction) :
  BGasUsed parent = 9000000 ->
  BGasLimit parent = 10000000 ->
  MinGasLimit <= 10003419 ->
  contrib 1024 (BGasUsed parent) = 13183 /\
  decay 1024 (BGasLimit parent) = 9764 /\
  U64.add (U64.sub (BGasLimit parent) (decay 1024 (BGasLimit parent)))
          (contrib 1024 (BGasUsed parent)) = 10003419 /\
  CalcGasLimit 1024 MinGasLimit parent 8000000 12000000 = 10003419.
Proof.
  intros Hu Hl Hm.
  assert (Hc : contrib 1024 (BGasUsed parent) = 13183) by (rewrite Hu; reflexivity).
  assert (Hd : decay 1024 (BGasLimit parent) = 9764) by (rewrite Hl; reflexivity).
  repeat split; try assumption.
  - rewrite Hc, Hd, Hl. reflexivity.
  - unfold CalcGasLimit. rewrite Hc, Hd, Hl.
    change (U64.add (U64.sub 10000000 9764) 13183) with 10003419.
    destruct (Z.ltb_spec 10003419 MinGasLimit); [lia|]. reflexivity.
Qed.

Lemma CalcGasLimit_concrete_witness :
  contrib 1024 9000000 = 13183 /\
  decay 1024 10000000 = 9764 /\
  CalcGasLimit 1024 5000 (gasBlock 9000000 10000000) 8000000 12000000 = 10003419.
Proof.
  destruct (CalcGasLimit_concrete 5000 (gasBlock 9000000 10000000))
    as (Hc & Hd & _ & Hr); [reflexivity | reflexivity | lia |].
  exact (conj Hc (conj Hd Hr)).
Defined.

(** C4 (as written, refuted). A parent limit of 1024 with divisor 1024 has
    decay 0; with floor 8,000,000 the floor branch returns the parent limit
    plus the decay, 1024, which is below a minimum gas limit of 5000. *)
Lemma CalcGasLimit_below_MinGasLimit :
  CalcGasLimit 1024 5000 (gasBlock 0 1024) 8000000 12000000 = 1024 /\
  ~ (5000 <= CalcGasLimit 1024 5000 (gasBlock 0 1024) 8000000 12000000
          <= Z.max 12000000 (1024 + decay 1024 1024)).
Proof.
  split; [reflexivity|].
  change (CalcGasLimit 1024 5000 (gasBlock 0 1024) 8000000 12000000) with 1024.
  lia.
Qed.

(** The ceiling branch leaves the interval too when the ceiling is below
    the minimum gas limit: the parent limit less the decay is returned. *)
Lemma CalcGasLimit_below_MinGasLimit_low_ceiling :
  CalcGasLimit 1024 5000 (gasBlock 0 5000) 0 4000 = 4997 /\
  decay 1024 5000 = 3.
Proof. split; reflexivity. Qed.

(** With a parent limit below the divisor the decay wraps, the parent limit
    plus the decay wraps to one less than the parent limit, and the ceiling
    branch returns one more than the parent limit. *)
Lemma CalcGasLimit_above_wrapped_sum :
  CalcGasLimit 1024 0 (gasBlock 0 5) 0 0 = 6 /\
  decay 1024 5 = U64.max_uint64 /\
  U64.add 5 (decay 1024 5) = 4.
Proof. repeat split. Qed.

(** C4 (amended). When the parent limit and the ceiling are at least the
    minimum gas limit and the parent limit plus the decay (the code's
    [uint64] value) does not overflow, the result lies in the closed interval
    from [MinGasLimit] to the larger of the ceiling and the parent limit
    plus the decay. *)
Theorem CalcGasLimit_bounds
    (GasLimitBoundDivisor MinGasLimit : Z) {Hash Bloom Transaction : Type}
    (parent : Block Hash Bloom Transaction) (gasFloor gasCeil : Z) :
  0 < GasLimitBoundDivisor ->
  0 <= BGasLimit parent ->
  MinGasLimit <= BGasLimit parent ->
  MinGasLimit <= gasCeil ->
  BGasLimit parent + decay GasLimitBoundDivisor (BGasLimit parent) < U64.modulus ->
  MinGasLimit
    <= CalcGasLimit GasLimitBoundDivisor MinGasLimit parent gasFloor gasCeil
    <= Z.max gasCeil
         (BGasLimit parent + decay GasLimitBoundDivisor (BGasLimit parent)).
Proof.
  intros Hd Hpos Hmin Hceil Hsum.
  pose proof modulus_pos as Hmod.
  rewrite CalcGasLimit_clamps. cbv zeta.
  set (lim := Z.max _ MinGasLimit).
  assert (Hlim : MinGasLimit <= lim) by (subst lim; lia).
  clearbody lim.
  set (pgl := BGasLimit parent) in *.
  assert (Hlt : pgl < U64.modulus).
  { pose proof (wrap_range (U64.div pgl GasLimitBoundDivisor - 1)) as [Hnn _].
    unfold decay, U64.sub in Hsum. lia. }
  assert (Hup : U64.add pgl (decay GasLimitBoundDivisor pgl)
                = pgl + decay GasLimitBoundDivisor pgl
                /\ MinGasLimit <= pgl + decay GasLimitBoundDivisor pgl).
  { destruct (Z_lt_le_dec pgl GasLimitBoundDivisor) as [Hsmall | Hbig].
    - rewrite decay_wraps in * by lia. unfold U64.max_uint64 in *.
      unfold U64.add. rewrite wrap_small by lia. lia.
    - destruct (decay_plain GasLimitBoundDivisor pgl) as [_ Hdec]; [lia | lia |].
      unfold U64.add. rewrite wrap_small by lia. lia. }
  assert (Hdown : U64.sub pgl (decay GasLimitBoundDivisor pgl)
                  <= pgl + decay GasLimitBoundDivisor pgl).
  { destruct (Z_lt_le_dec pgl GasLimitBoundDivisor) as [Hsmall | Hbig].
    - rewrite decay_wraps in * by lia. unfold U64.max_uint64 in *.
      assert (pgl = 0) by lia. subst pgl. replace (BGasLimit parent) with 0 by lia.
      vm_compute. discriminate.
    - destruct (decay_plain GasLimitBoundDivisor pgl) as [_ Hdec]; [lia | lia |].
      unfold U64.sub. rewrite wrap_small by lia. lia. }
  destruct Hup as [Hup Hup'].
  destruct (Z.ltb_spec lim gasFloor).
  - rewrite Hup. lia.
  - destruct (Z.ltb_spec gasCeil lim); lia.
Qed.

Lemma CalcGasLimit_bounds_witness :
  5000 <= CalcGasLimit 1024 5000 (gasBlock 9000000 10000000) 8000000 12000000
       <= Z.max 12000000 (10000000 + decay 1024 10000000).
Proof.
  apply (CalcGasLimit_bounds 1024 5000 (gasBlock 9000000 10000000) 8000000 12000000);
    vm_compute; (reflexivity || discriminate).
Defined.

(** C9. When the parent limit is below the divisor, [decay] wraps to
    2^64 - 1, the intermediate limit wraps to the parent limit plus the
    contribution plus one modulo 2^64, and the result is the clamping of
    these wrapped values: the intermediate limit itself whenever it is at
    least the minimum and within floor and ceiling. *)
Theorem CalcGasLimit_wrapped_decay
    (GasLimitBoundDivisor MinGasLimit : Z) {Hash Bloom Transaction : Type}
    (parent : Block Hash Bloom Transaction) (gasFloor gasCeil : Z) :
  0 <= BGasLimit parent < GasLimitBoundDivisor ->
  GasLimitBoundDivisor <= U64.max_uint64 ->
  let pgl := BGasLimit parent in
  let c := contrib GasLimitBoundDivisor (BGasUsed parent) in
  let wrapped := (pgl + c + 1) mod 2 ^ 64 in
  decay GasLimitBoundDivisor pgl = 2 ^ 64 - 1 /\
  U64.add (U64.sub pgl (decay GasLimitBoundDivisor pgl)) c = wrapped /\
  CalcGasLimit GasLimitBoundDivisor MinGasLimit parent gasFloor gasCeil =
    (let limit := Z.max wrapped MinGasLimit in
     if limit <? gasFloor then Z.min ((pgl - 1) mod 2 ^ 64) gasFloor
     else if gasCeil <? limit then Z.max (pgl + 1) gasCeil
     else limit) /\
  (MinGasLimit <= wrapped -> gasFloor <= wrapped <= gasCeil ->
   CalcGasLimit GasLimitBoundDivisor MinGasLimit parent gasFloor gasCeil = wrapped).
Proof.
  intros Hsmall Hdiv pgl c wrapped.
  assert (Hdecay : decay GasLimitBoundDivisor pgl = 2 ^ 64 - 1).
  { subst pgl. rewrite decay_wraps by exact Hsmall. reflexivity. }
  assert (Hsub : U64.sub pgl (decay GasLimitBoundDivisor pgl) = pgl + 1).
  { rewrite Hdecay. unfold U64.sub.
    rewrite wrap_borrow; unfold U64.max_uint64, U64.modulus in *; lia. }
  assert (Hadd : U64.add pgl (decay GasLimitBoundDivisor pgl) = (pgl - 1) mod 2 ^ 64).
  { rewrite Hdecay. unfold U64.add, U64.wrap, U64.modulus.
    replace (pgl + (2 ^ 64 - 1)) with (pgl - 1 + 1 * 2 ^ 64) by lia.
    apply Z.mod_add. lia. }
  assert (Hraw : U64.add (U64.sub pgl (decay GasLimitBoundDivisor pgl)) c = wrapped).
  { rewrite Hsub. subst wrapped. unfold U64.add, U64.wrap, U64.modulus.
    f_equal. lia. }
  assert (Hres : CalcGasLimit GasLimitBoundDivisor MinGasLimit parent gasFloor gasCeil =
    (let limit := Z.max wrapped MinGasLimit in
     if limit <? gasFloor then Z.min ((pgl - 1) mod 2 ^ 64) gasFloor
     else if gasCeil <? limit then Z.max (pgl + 1) gasCeil
     else limit)).
  { rewrite CalcGasLimit_clamps. cbv zeta. fold pgl. fold c.
    rewrite Hraw, Hadd, Hsub. reflexivity. }
  repeat split; try assumption.
  intros Hm [Hf Hc]. rewrite Hres. cbv zeta.
  replace (Z.max wrapped MinGasLimit) with wrapped by lia.
  destruct (Z.ltb_spec wrapped gasFloor); [lia|].
  destruct (Z.ltb_spec gasCeil wrapped); [lia | reflexivity].
Qed.

Lemma CalcGasLimit_wrapped_decay_witness :
  decay 1024 1000 = 2 ^ 64 - 1 /\
  CalcGasLimit 1024 0 (gasBlock 3000 1000) 0 12000000 = 1000 + 4 + 1.
Proof.
  destruct (CalcGasLimit_wrapped_decay 1024 0 (gasBlock 3000 1000) 0 12000000)
    as (Hd & _ & _ & Hr).
  - vm_compute. split; [discriminate | reflexivity].
  - vm_compute. discriminate.
  - split; [exact Hd|]. apply Hr; vm_compute; try split; discriminate.
Defined.

(** ** The receive loop and schedules *)

Section ChannelFacts.

Context {Hash Bloom : Type}.
Implicit Types rs : list (option (@error Hash Bloom)).
Implicit Types fs : list (unit -> option (@error Hash Bloom)).

(** An error handed back by the loop was delivered by some goroutine. *)
Lemma recvLoop_Some_In n rs e : recvLoop n rs = Some e -> In (Some e) rs.
Proof.
  revert rs. induction n as [|n IH]; intros rs; simpl; [discriminate|].
  destruct rs as [|[e'|] rest]; [discriminate | |].
  - intros [= ->]. now left.
  - intros Hrest. right. now apply IH.
Qed.

(** Once every result has been read, success means every result was nil. *)
Lemma recvLoop_None_all n rs :
  (length rs <= n)%nat -> recvLoop n rs = None -> forall r, In r rs -> r = None.
Proof.
  revert rs. induction n as [|n IH]; intros rs Hlen; simpl.
  - destruct rs; [intros _ r [] | simpl in Hlen; lia].
  - destruct rs as [|[e'|] rest]; [intros _ r [] | discriminate |].
    simpl in Hlen. intros Hrest r [<- | Hin]; [reflexivity|].
    apply (IH rest); [lia | assumption | assumption].
Qed.

Lemma recvLoop_all_None n rs :
  (forall r, In r rs -> r = None) -> recvLoop n rs = None.
Proof.
  revert rs. induction n as [|n IH]; intros rs Hall; simpl; [reflexivity|].
  destruct rs as [|r rest]; [reflexivity|].
  rewrite (Hall r) by now left. apply IH. intros r' Hin. apply Hall. now right.
Qed.

(** If all delivered errors are the same error, that is the one returned,
    whatever the order of delivery. *)
Lemma recvLoop_only n rs e :
  (length rs <= n)%nat -> In (Some e) rs ->
  (forall e', In (Some e') rs -> e' = e) -> recvLoop n rs = Some e.
Proof.
  intros Hlen Hin Huniq.
  destruct (recvLoop n rs) as [e'|] eqn:Hloop.
  - f_equal. apply Huniq. now apply recvLoop_Some_In with n.
  - pose proof (recvLoop_None_all n rs Hlen Hloop _ Hin). discriminate.
Qed.

Lemma arrivals_in_order fs :
  arrivals (seq 0 (length fs)) fs = map (fun f => f tt) fs.
Proof.
  unfold arrivals. induction fs as [|f fs IH]; [reflexivity|].
  simpl. f_equal. rewrite <- seq_shift, map_map. exact IH.
Qed.

(** Under a schedule every goroutine delivers exactly once. *)
Lemma arrivals_schedule fs sched :
  is_schedule (length fs) sched ->
  Permutation (arrivals sched fs) (map (fun f => f tt) fs).
Proof.
  intros Hs. rewrite <- arrivals_in_order. unfold arrivals.
  now apply Permutation_map.
Qed.

End ChannelFacts.

(** ** [ValidateBody] *)

Section ValidateBodyFacts.

Context {Hash Bloom Transaction ChainConfig : Type}.
Context `{EqDecision Hash}.
Variable BlockHash : Block Hash Bloom Transaction -> Hash.
Variable CalcUncleHash : list (Header Hash Bloom) -> Hash.
Variable DeriveShaTxs : list Transaction -> Hash.

Implicit Types v : @BlockValidator Hash Bloom Transaction ChainConfig.
Implicit Types block : Block Hash Bloom Transaction.
Implicit Types e : @error Hash Bloom.

Local Abbreviation validateBody := (ValidateBody BlockHash CalcUncleHash DeriveShaTxs).
Local Abbreviation isKnown := (known BlockHash).
Local Abbreviation uncleRoot := (fun block => CalcUncleHash (uncles block)).
Local Abbreviation txRoot := (fun block => DeriveShaTxs (transactions block)).

(** Three results of which the first is nil, read in any order. *)
Lemma recvLoop_three (rs : list (option (@error Hash Bloom))) a b :
  Permutation rs [None; a; b] ->
  (recvLoop 3 rs = None <-> a = None /\ b = None) /\
  (forall e, recvLoop 3 rs = Some e -> a = Some e \/ b = Some e) /\
  (a = None -> recvLoop 3 rs = b) /\
  (b = None -> recvLoop 3 rs = a).
Proof.
  intros Hp.
  assert (Hlen : (length rs <= 3)%nat) by (rewrite (Permutation_length Hp); simpl; lia).
  assert (Hin : forall r, In r rs <-> r = None \/ r = a \/ r = b).
  { intros r. split.
    - intros Hr. apply (Permutation_in _ Hp) in Hr. simpl in Hr. intuition auto.
    - intros Hr. apply (Permutation_in _ (Permutation_sym Hp)). simpl. intuition auto. }
  assert (Hsome : forall e, recvLoop 3 rs = Some e -> a = Some e \/ b = Some e).
  { intros e He. apply recvLoop_Some_In, Hin in He.
    destruct He as [He | [He | He]]; [discriminate | now left | now right]. }
  assert (Hone : forall x y, (x = a /\ y = b) \/ (x = b /\ y = a) ->
                             x = None -> recvLoop 3 rs = y).
  { intros x y Hxy Hx. destruct y as [e|].
    - apply recvLoop_only; [exact Hlen | apply Hin; intuition congruence |].
      intros e' He'. apply Hin in He'. intuition congruence.
    - apply recvLoop_all_None. intros r Hr. apply Hin in Hr. intuition congruence. }
  split; [split|split; [exact Hsome | split]].
  - intros Hnone.
    split; apply (recvLoop_None_all 3 rs Hlen Hnone), Hin; auto.
  - intros [-> ->]. apply recvLoop_all_None. intros r Hr. apply Hin in Hr. tauto.
  - apply Hone. now left.
  - apply Hone. now right.
Qed.

(** The sequential prefix, then the three goroutines. *)
Lemma ValidateBody_cases v block sched :
  is_schedule 3 sched ->
  (isKnown v block = true /\ validateBody v block sched = Some ErrKnownBlock) \/
  (isKnown v block = false /\
   exists e, VerifyUncles (engine v) (bc v) block = Some e /\
             validateBody v block sched = Some e) \/
  (isKnown v block = false /\ VerifyUncles (engine v) (bc v) block = None /\
   uncleRoot block <> UncleHash (header block) /\
   validateBody v block sched =
     Some (ErrUncleRootMismatch (uncleRoot block) (UncleHash (header block)))) \/
  (isKnown v block = false /\ VerifyUncles (engine v) (bc v) block = None /\
   uncleRoot block = UncleHash (header block) /\
   exists rs, validateBody v block sched = recvLoop 3 rs /\
              Permutation rs [None; txRootCheck DeriveShaTxs block; ancestorCheck v block]).
Proof.
  intros Hs. unfold ValidateBody, known.
  destruct (HasBlockAndState (bc v) (BlockHash block) (BNumberU64 block)) eqn:Hk;
    [left; auto | right].
  destruct (VerifyUncles (engine v) (bc v) block) as [e|] eqn:Hv; [left; eauto | right].
  cbv zeta.
  destruct (decide (CalcUncleHash (uncles block) <> UncleHash (header block))) as [Hu | Hu];
    [left; auto | right].
  repeat split; [now destruct (decide (CalcUncleHash (uncles block) = UncleHash (header block)))|].
  eexists. split; [reflexivity|].
  match goal with
  | |- Permutation (arrivals sched ?fs) _ =>
      pose proof (arrivals_schedule fs sched Hs) as Hp
  end.
  cbn [map] in Hp. exact Hp.
Qed.

(** Past the prefix the result is read off the three deliveries. *)
Lemma ValidateBody_dispatched v block sched :
  is_schedule 3 sched ->
  isKnown v block = false ->
  VerifyUncles (engine v) (bc v) block = None ->
  uncleRoot block = UncleHash (header block) ->
  exists rs, validateBody v block sched = recvLoop 3 rs /\
             Permutation rs [None; txRootCheck DeriveShaTxs block; ancestorCheck v block].
Proof.
  intros Hs Hk Hv Hu.
  destruct (ValidateBody_cases v block sched Hs)
    as [[Hk' _] | [[_ (e0 & Hv' & _)] | [(_ & _ & Hu' & _) | (_ & _ & _ & Hrs)]]];
    [congruence | congruence | contradiction | exact Hrs].
Qed.

(** The prefix settles the call before any goroutine is started. *)
Lemma ValidateBody_known v block sched :
  isKnown v block = true -> validateBody v block sched = Some ErrKnownBlock.
Proof. unfold ValidateBody, known. now intros ->. Qed.

Lemma ValidateBody_engine_error v block sched e :
  isKnown v block = false -> VerifyUncles (engine v) (bc v) block = Some e ->
  validateBody v block sched = Some e.
Proof. unfold ValidateBody, known. now intros -> ->. Qed.

Lemma ValidateBody_uncle_root v block sched :
  isKnown v block = false -> VerifyUncles (engine v) (bc v) block = None ->
  uncleRoot block <> UncleHash (header block) ->
  validateBody v block sched =
    Some (ErrUncleRootMismatch (uncleRoot block) (UncleHash (header block))).
Proof.
  unfold ValidateBody, known. intros -> -> Hu. cbv zeta.
  now destruct (decide (CalcUncleHash (uncles block) <> UncleHash (header block))).
Qed.

Lemma txRootCheck_None block :
  txRootCheck DeriveShaTxs block = None <-> txRoot block = TxHash (header block).
Proof.
  unfold txRootCheck.
  destruct (decide (DeriveShaTxs (transactions block) <> TxHash (header block))) as [Hne | Heq].
  - split; [discriminate | intros Heq; now destruct Hne].
  - split; [intros _ | reflexivity].
    now destruct (decide (DeriveShaTxs (transactions block) = TxHash (header block))).
Qed.

Lemma txRootCheck_Some block e :
  txRootCheck DeriveShaTxs block = Some e ->
  e = ErrTxRootMismatch (txRoot block) (TxHash (header block)) /\
  txRoot block <> TxHash (header block).
Proof.
  unfold txRootCheck.
  destruct (decide (DeriveShaTxs (transactions block) <> TxHash (header block)));
    [|discriminate].
  intros [= <-]. auto.
Qed.

Lemma ancestorCheck_None v block :
  ancestorCheck v block = None <-> parentWithState v block = true.
Proof.
  unfold ancestorCheck.
  destruct (parentWithState v block), (parentKnown v block); simpl; split;
    (reflexivity || discriminate).
Qed.

Lemma ancestorCheck_Some v block e :
  ancestorCheck v block = Some e ->
  parentWithState v block = false /\
  ((e = ErrUnknownAncestor /\ parentKnown v block = false) \/
   (e = ErrPrunedAncestor /\ parentKnown v block = true)).
Proof.
  unfold ancestorCheck.
  destruct (parentWithState v block), (parentKnown v block); simpl;
    [discriminate | discriminate | |]; intros [= <-]; auto.
Qed.

End ValidateBodyFacts.

Section ValidateBodyClaims.

Context {Hash Bloom Transaction ChainConfig : Type}.
Context `{EqDecision Hash}.
Variable BlockHash : Block Hash Bloom Transaction -> Hash.
Variable CalcUncleHash : list (Header Hash Bloom) -> Hash.
Variable DeriveShaTxs : list Transaction -> Hash.

Implicit Types v : @BlockValidator Hash Bloom Transaction ChainConfig.
Implicit Types block : Block Hash Bloom Transaction.
Implicit Types e : @error Hash Bloom.

Local Abbreviation validateBody := (ValidateBody BlockHash CalcUncleHash DeriveShaTxs).
Local Abbreviation isKnown := (known BlockHash).

(** C1. Under every schedule of the three goroutines, [ValidateBody]
    returns nil if and only if the recomputed uncle root equals the header's,
    the recomputed transaction root equals the header's, the parent is known
    with state, the engine's uncle verification passes and the block is not
    already known with state; any error it returns is the error of a
    condition the block violates. *)
Theorem ValidateBody_succeeds_iff v block sched :
  is_schedule 3 sched ->
  (validateBody v block sched = None <->
     CalcUncleHash (uncles block) = UncleHash (header block) /\
     DeriveShaTxs (transactions block) = TxHash (header block) /\
     parentWithState v block = true /\
     VerifyUncles (engine v) (bc v) block = None /\
     isKnown v block = false) /\
  (forall e, validateBody v block sched = Some e ->
             body_violation BlockHash CalcUncleHash DeriveShaTxs v block e).
Proof.
  intros Hs.
  destruct (ValidateBody_cases BlockHash CalcUncleHash DeriveShaTxs v block sched Hs)
    as [[Hk Hr] | [[Hk (e0 & Hv & Hr)] | [(Hk & Hv & Hu & Hr) | (Hk & Hv & Hu & rs & Hr & Hp)]]];
    rewrite Hr; clear Hr.
  - split.
    + split; [discriminate | intros (_ & _ & _ & _ & Hk'); congruence].
    + intros e [= <-]. left. auto.
  - split.
    + split; [discriminate | intros (_ & _ & _ & Hv' & _); congruence].
    + intros e [= <-]. right; left. exact Hv.
  - split.
    + split; [discriminate | intros (Hu' & _); contradiction].
    + intros e [= <-]. right; right; left. auto.
  - destruct (recvLoop_three rs _ _ Hp) as (Hnone & Hsome & _ & _).
    split.
    + rewrite Hnone, txRootCheck_None, ancestorCheck_None. tauto.
    + intros e He. destruct (Hsome e He) as [Ht | Ha].
      * apply txRootCheck_Some in Ht. right; right; right; left. exact Ht.
      * apply ancestorCheck_Some in Ha.
        destruct Ha as [Hws [[-> Hpk] | [-> Hpk]]].
        -- right; right; right; right; left. auto.
        -- right; right; right; right; right. auto.
Qed.

(** C6 (amended). For a block that is not already known, passes uncle
    verification and has matching uncle and transaction roots, under every
    schedule: if the parent is stored but its state is not, [ValidateBody]
    returns [ErrPrunedAncestor]; if the parent is not stored at all, it
    returns [ErrUnknownAncestor]. Whenever uncle verification passes, a
    returned [ErrPrunedAncestor] means the parent is stored without state
    and a returned [ErrUnknownAncestor] means it is not stored. *)
Theorem ValidateBody_ancestor_errors v block sched :
  is_schedule 3 sched ->
  VerifyUncles (engine v) (bc v) block = None ->
  (isKnown v block = false ->
   CalcUncleHash (uncles block) = UncleHash (header block) ->
   DeriveShaTxs (transactions block) = TxHash (header block) ->
   parentWithState v block = false ->
   (parentKnown v block = true -> validateBody v block sched = Some ErrPrunedAncestor) /\
   (parentKnown v block = false -> validateBody v block sched = Some ErrUnknownAncestor)) /\
  (validateBody v block sched = Some ErrPrunedAncestor ->
   parentKnown v block = true /\ parentWithState v block = false) /\
  (validateBody v block sched = Some ErrUnknownAncestor ->
   parentKnown v block = false /\ parentWithState v block = false).
Proof.
  intros Hs Hv.
  assert (Hback : forall e, e = ErrPrunedAncestor \/ e = ErrUnknownAncestor ->
            validateBody v block sched = Some e ->
            ancestorCheck v block = Some e).
  { intros e He Hr.
    destruct (ValidateBody_cases BlockHash CalcUncleHash DeriveShaTxs v block sched Hs)
      as [[Hk Hr'] | [[Hk (e0 & Hv' & Hr')] | [(Hk & _ & Hu & Hr') | (Hk & _ & Hu & rs & Hr' & Hp)]]];
      rewrite Hr' in Hr; clear Hr'.
    - destruct He; congruence.
    - congruence.
    - destruct He; congruence.
    - destruct (recvLoop_three rs _ _ Hp) as (_ & Hsome & _ & _).
      destruct (Hsome e Hr) as [Ht | Ha]; [|exact Ha].
      apply txRootCheck_Some in Ht. destruct Ht as [-> _]. destruct He; discriminate. }
  split; [|split].
  - intros Hk Hu Ht Hws.
    destruct (ValidateBody_cases BlockHash CalcUncleHash DeriveShaTxs v block sched Hs)
      as [[Hk' _] | [[_ (e0 & Hv' & _)] | [(_ & _ & Hu' & _) | (_ & _ & _ & rs & Hr & Hp)]]];
      [congruence | congruence | contradiction |].
    destruct (recvLoop_three rs _ _ Hp) as (_ & _ & Hpass & _).
    rewrite Hr, Hpass by (now apply txRootCheck_None).
    unfold ancestorCheck. rewrite Hws. simpl.
    split; intros ->; reflexivity.
  - intros Hr. apply Hback in Hr; [|now left].
    apply ancestorCheck_Some in Hr. destruct Hr as [Hws [[? ?] | [_ Hpk]]];
      [discriminate | auto].
  - intros Hr. apply Hback in Hr; [|now right].
    apply ancestorCheck_Some in Hr. destruct Hr as [Hws [[_ Hpk] | [? ?]]];
      [auto | discriminate].
Qed.

(** C10 (amended). The known-block test, the engine's uncle verification
    and the uncle-root comparison run in this order before any goroutine is
    started: a known block yields [ErrKnownBlock]; a block that is not known
    and fails uncle verification yields the engine's error; a block that is
    not known, passes it and has an uncle-root mismatch yields that mismatch;
    each under every order of delivery, whatever the transaction root and
    the ancestors are. Two schedules can give different results only when
    this prefix passes, and then both results are errors of the goroutines'
    checks. *)
Theorem ValidateBody_prefix_deterministic v block :
  (isKnown v block = true ->
   forall sched, validateBody v block sched = Some ErrKnownBlock) /\
  (isKnown v block = false ->
   forall e, VerifyUncles (engine v) (bc v) block = Some e ->
   forall sched, validateBody v block sched = Some e) /\
  (isKnown v block = false ->
   VerifyUncles (engine v) (bc v) block = None ->
   CalcUncleHash (uncles block) <> UncleHash (header block) ->
   forall sched,
     validateBody v block sched =
       Some (ErrUncleRootMismatch (CalcUncleHash (uncles block)) (UncleHash (header block)))) /\
  (forall s1 s2, is_schedule 3 s1 -> is_schedule 3 s2 ->
   validateBody v block s1 <> validateBody v block s2 ->
   isKnown v block = false /\
   VerifyUncles (engine v) (bc v) block = None /\
   CalcUncleHash (uncles block) = UncleHash (header block) /\
   exists e1 e2, validateBody v block s1 = Some e1 /\ task_error e1 /\
                 validateBody v block s2 = Some e2 /\ task_error e2).
Proof.
  split; [|split; [|split]].
  - intros Hk sched. now apply ValidateBody_known.
  - intros Hk e Hv sched. now apply ValidateBody_engine_error.
  - intros Hk Hv Hu sched. now apply ValidateBody_uncle_root.
  - intros s1 s2 Hs1 Hs2 Hne.
    destruct (isKnown v block) eqn:Hk.
    { rewrite !ValidateBody_known in Hne by exact Hk. contradiction. }
    destruct (VerifyUncles (engine v) (bc v) block) as [e|] eqn:Hv.
    { rewrite !(ValidateBody_engine_error _ _ _ v block _ e) in Hne by assumption.
      contradiction. }
    destruct (decide (CalcUncleHash (uncles block) = UncleHash (header block))) as [Hu | Hu].
    2:{ rewrite !ValidateBody_uncle_root in Hne by assumption. contradiction. }
    repeat (split; [reflexivity || assumption|]).
    destruct (ValidateBody_dispatched BlockHash CalcUncleHash DeriveShaTxs
                v block s1 Hs1 Hk Hv Hu) as (rs1 & Hr1 & Hp1).
    destruct (ValidateBody_dispatched BlockHash CalcUncleHash DeriveShaTxs
                v block s2 Hs2 Hk Hv Hu) as (rs2 & Hr2 & Hp2).
    destruct (recvLoop_three rs1 _ _ Hp1) as (Hnone1 & Hsome1 & _ & _).
    destruct (recvLoop_three rs2 _ _ Hp2) as (Hnone2 & Hsome2 & _ & _).
    rewrite Hr1, Hr2 in *.
    assert (Htask : forall e,
              txRootCheck DeriveShaTxs block = Some e \/ ancestorCheck v block = Some e ->
              task_error e).
    { intros e [Ht | Ha].
      - apply txRootCheck_Some in Ht. destruct Ht as [-> _]. right; left. eauto.
      - apply ancestorCheck_Some in Ha.
        destruct Ha as [_ [[-> _] | [-> _]]]; [right; right; left | right; right; right];
          reflexivity. }
    assert (Hboth : recvLoop 3 rs1 = None <-> recvLoop 3 rs2 = None)
      by (rewrite Hnone1, Hnone2; tauto).
    clear Hnone1 Hnone2.
    destruct (recvLoop 3 rs1) as [e1|] eqn:He1.
    + destruct (recvLoop 3 rs2) as [e2|] eqn:He2.
      * exists e1, e2. repeat split; auto.
      * exfalso. destruct Hboth as [_ Hb]. specialize (Hb eq_refl). discriminate.
    + exfalso. destruct Hboth as [Hb _]. specialize (Hb eq_refl). congruence.
Qed.

End ValidateBodyClaims.

(** *** On sample chains *)

Lemma schedule_201 : is_schedule 3 [2; 0; 1]%nat.
Proof.
  unfold is_schedule. simpl.
  eapply perm_trans; [apply perm_swap|]. apply perm_skip, perm_swap.
Qed.

Lemma schedule_120 : is_schedule 3 [1; 2; 0]%nat.
Proof.
  unfold is_schedule. simpl.
  eapply perm_trans; [apply perm_skip, perm_swap|]. apply perm_swap.
Qed.

Lemma schedule_012 : is_schedule 3 [0; 1; 2]%nat.
Proof. apply Permutation_refl. Qed.

Lemma schedule_021 : is_schedule 3 [0; 2; 1]%nat.
Proof. unfold is_schedule. simpl. apply perm_skip, perm_swap. Qed.

Lemma ValidateBody_succeeds_iff_witness :
  is_schedule 3 [2; 0; 1]%nat /\
  Sample.validateBody (Sample.validator Sample.chainReady Sample.engineOk)
    (Sample.blockWith 0 0) [2; 0; 1]%nat = None.
Proof.
  split; [exact schedule_201|].
  apply (proj1 (ValidateBody_succeeds_iff Sample.blockHash Sample.uncleHash Sample.txHash
                  (Sample.validator Sample.chainReady Sample.engineOk)
                  (Sample.blockWith 0 0) [2; 0; 1]%nat schedule_201)).
  vm_compute. repeat split.
Defined.

(** C6 (as written, refuted). The parent is stored and its state is not,
    yet the block declares an uncle root that its (empty) uncle list does not
    have: under every schedule the call returns the uncle-root mismatch,
    not [ErrPrunedAncestor]. *)
Lemma ValidateBody_pruned_parent_uncle_mismatch :
  let v := Sample.validator Sample.chainPruned Sample.engineOk in
  let block := Sample.blockWith 9 0 in
  parentKnown v block = true /\
  parentWithState v block = false /\
  forall sched,
    Sample.validateBody v block sched = Some (ErrUncleRootMismatch 0 9) /\
    Sample.validateBody v block sched <> Some ErrPrunedAncestor.
Proof.
  cbv zeta. repeat split.
  intros Heq. vm_compute in Heq. discriminate.
Qed.

(** The documented race: with a mismatching transaction root and a pruned
    parent, the order of delivery decides which of the two errors is
    returned. *)
Lemma ValidateBody_race :
  let v := Sample.validator Sample.chainPruned Sample.engineOk in
  let block := Sample.blockWith 0 9 in
  is_schedule 3 [0; 1; 2]%nat /\ is_schedule 3 [0; 2; 1]%nat /\
  Sample.validateBody v block [0; 1; 2]%nat = Some (ErrTxRootMismatch 0 9) /\
  Sample.validateBody v block [0; 2; 1]%nat = Some ErrPrunedAncestor.
Proof.
  cbv zeta. split; [exact schedule_012|]. split; [exact schedule_021|].
  split; reflexivity.
Qed.

Lemma ValidateBody_ancestor_errors_witness :
  Sample.validateBody (Sample.validator Sample.chainPruned Sample.engineOk)
    (Sample.blockWith 0 0) [1; 2; 0]%nat = Some ErrPrunedAncestor /\
  Sample.validateBody (Sample.validator Sample.chainEmpty Sample.engineOk)
    (Sample.blockWith 0 0) [1; 2; 0]%nat = Some ErrUnknownAncestor.
Proof.
  split.
  - apply (ValidateBody_ancestor_errors Sample.blockHash Sample.uncleHash Sample.txHash
             (Sample.validator Sample.chainPruned Sample.engineOk)
             (Sample.blockWith 0 0) [1; 2; 0]%nat schedule_120 eq_refl);
      reflexivity.
  - apply (ValidateBody_ancestor_errors Sample.blockHash Sample.uncleHash Sample.txHash
             (Sample.validator Sample.chainEmpty Sample.engineOk)
             (Sample.blockWith 0 0) [1; 2; 0]%nat schedule_120 eq_refl);
      reflexivity.
Defined.

(** C10 (as written, refuted). A block that is already known with state,
    fails uncle verification and has an uncle-root mismatch: the call returns
    [ErrKnownBlock] under every schedule, neither of the two uncle errors. *)
Lemma ValidateBody_known_block_hides_uncle_errors :
  let v := Sample.validator Sample.chainKnown Sample.engineFail in
  let block := Sample.blockWith 9 0 in
  VerifyUncles (engine v) (bc v) block = Some (ErrEngine 1) /\
  Sample.uncleHash (uncles block) <> UncleHash (header block) /\
  forall sched, Sample.validateBody v block sched = Some ErrKnownBlock.
Proof.
  cbv zeta. split; [reflexivity|]. split; [|reflexivity].
  vm_compute. discriminate.
Qed.

Lemma ValidateBody_prefix_deterministic_witness :
  Sample.validateBody (Sample.validator Sample.chainPruned Sample.engineFail)
    (Sample.blockWith 0 9) [0; 1; 2]%nat = Some (ErrEngine 1).
Proof.
  apply (proj1 (proj2 (ValidateBody_prefix_deterministic
                         Sample.blockHash Sample.uncleHash Sample.txHash
                         (Sample.validator Sample.chainPruned Sample.engineFail)
                         (Sample.blockWith 0 9))));
    reflexivity.
Defined.

(** ** [ValidateState] *)

Section ValidateStateFacts.

Context {Hash Bloom Transaction Receipt StateDB ChainConfig : Type}.
Context `{EqDecision Hash} `{EqDecision Bloom}.
Variable DeriveShaReceipts : list Receipt -> Hash.
Variable CreateBloom : list Receipt -> Bloom.
Variable IntermediateRoot : StateDB -> bool -> Hash.
Variable IsEIP158 : ChainConfig -> Z -> bool.

Implicit Types v : @BlockValidator Hash Bloom Transaction ChainConfig.
Implicit Types block : Block Hash Bloom Transaction.

Local Abbreviation validateState :=
  (ValidateState DeriveShaReceipts CreateBloom IntermediateRoot IsEIP158).

(** Deliveries of which at most one value is not nil: that value is the
    result, in whatever order they are read. *)
Lemma recvLoop_single (rs l : list (option (@error Hash Bloom))) x :
  Permutation rs l -> In x l -> (forall r, In r l -> r = None \/ r = x) ->
  recvLoop (length l) rs = x.
Proof.
  intros Hp Hx Hall.
  assert (Hlen : (length rs <= length l)%nat) by (rewrite (Permutation_length Hp); lia).
  assert (Hin : forall r, In r rs <-> In r l).
  { intros r. split; apply Permutation_in; [exact Hp | now apply Permutation_sym]. }
  destruct x as [e|].
  - apply recvLoop_only; [exact Hlen | now apply Hin |].
    intros e' He'. apply Hin, Hall in He'. destruct He'; congruence.
  - apply recvLoop_all_None. intros r Hr. apply Hin, Hall in Hr. tauto.
Qed.

(** C3. Under every schedule of the three goroutines, [ValidateState]
    returns nil if and only if the declared gas used, bloom, receipt root
    and state root all equal the recomputed values. A gas-used mismatch
    yields the gas-used error; with matching gas used, when exactly one of
    bloom, receipt root and state root mismatches, the error returned is
    the one of that field. *)
Theorem ValidateState_succeeds_iff v block statedb receipts usedGas sched :
  is_schedule 3 sched ->
  let h := header block in
  let rbloom := CreateBloom receipts in
  let receiptSha := DeriveShaReceipts receipts in
  let root := IntermediateRoot statedb (IsEIP158 (config v) (Number h)) in
  let result := validateState v block statedb receipts usedGas sched in
  (result = None <->
     BGasUsed block = usedGas /\ rbloom = HBloom h /\
     receiptSha = ReceiptHash h /\ Root h = root) /\
  (BGasUsed block <> usedGas ->
   result = Some (ErrInvalidGasUsed (BGasUsed block) usedGas)) /\
  (BGasUsed block = usedGas -> rbloom <> HBloom h ->
   receiptSha = ReceiptHash h -> Root h = root ->
   result = Some (ErrInvalidBloom (HBloom h) rbloom)) /\
  (BGasUsed block = usedGas -> rbloom = HBloom h ->
   receiptSha <> ReceiptHash h -> Root h = root ->
   result = Some (ErrInvalidReceiptRoot (ReceiptHash h) receiptSha)) /\
  (BGasUsed block = usedGas -> rbloom = HBloom h ->
   receiptSha = ReceiptHash h -> Root h <> root ->
   result = Some (ErrInvalidMerkleRoot (Root h) root)).
Proof.
  intros Hs h rbloom receiptSha root result.
  subst result. unfold ValidateState. cbv zeta. fold h rbloom receiptSha root.
  destruct (decide (BGasUsed block <> usedGas)) as [Hg | Hg].
  { split; [split; [discriminate | tauto]|].
    repeat split; (reflexivity || (intros; contradiction)). }
  assert (Hg' : BGasUsed block = usedGas)
    by (destruct (decide (BGasUsed block = usedGas)); tauto).
  match goal with
  | |- context [arrivals sched ?fs] =>
      pose proof (arrivals_schedule fs sched Hs) as Hp; cbn [map] in Hp;
      set (rs := arrivals sched fs) in *
  end.
  cbn [length].
  set (a := if decide (rbloom <> HBloom h)
            then Some (ErrInvalidBloom (HBloom h) rbloom) else None) in *.
  set (b := if decide (receiptSha <> ReceiptHash h)
            then Some (ErrInvalidReceiptRoot (ReceiptHash h) receiptSha) else None) in *.
  set (c := if decide (Root h <> root)
            then Some (ErrInvalidMerkleRoot (Root h) root) else None) in *.
  assert (Hlen : (length rs <= 3)%nat) by (rewrite (Permutation_length Hp); simpl; lia).
  assert (Hin : forall r, In r rs <-> r = a \/ r = b \/ r = c).
  { intros r. split.
    - intros Hr. apply (Permutation_in _ Hp) in Hr. simpl in Hr. intuition auto.
    - intros Hr. apply (Permutation_in _ (Permutation_sym Hp)). simpl. intuition auto. }
  assert (Ha : a = None <-> rbloom = HBloom h).
  { subst a. destruct (decide (rbloom <> HBloom h)) as [Hne | Hne];
      [split; [discriminate | tauto]|].
    split; [intros _ | reflexivity]. destruct (decide (rbloom = HBloom h)); tauto. }
  assert (Hb : b = None <-> receiptSha = ReceiptHash h).
  { subst b. destruct (decide (receiptSha <> ReceiptHash h)) as [Hne | Hne];
      [split; [discriminate | tauto]|].
    split; [intros _ | reflexivity]. destruct (decide (receiptSha = ReceiptHash h)); tauto. }
  assert (Hc : c = None <-> Root h = root).
  { subst c. destruct (decide (Root h <> root)) as [Hne | Hne];
      [split; [discriminate | tauto]|].
    split; [intros _ | reflexivity]. destruct (decide (Root h = root)); tauto. }
  assert (Hone : forall x, In x [a; b; c] ->
                   (forall r, In r [a; b; c] -> r = None \/ r = x) -> recvLoop 3 rs = x).
  { intros x Hx Hall. now apply (recvLoop_single rs [a; b; c] x Hp). }
  split; [split|split; [tauto | split; [|split]]].
  - intros Hnone. pose proof (recvLoop_None_all 3 rs Hlen Hnone) as Hall.
    rewrite <- Ha, <- Hb, <- Hc.
    repeat split; [exact Hg' | | |]; apply Hall, Hin; auto.
  - intros (_ & Ha' & Hb' & Hc'). apply Ha in Ha'. apply Hb in Hb'. apply Hc in Hc'.
    apply recvLoop_all_None. intros r Hr. apply Hin in Hr.
    destruct Hr as [-> | [-> | ->]]; assumption.
  - intros _ Hne Hb' Hc'. apply Hb in Hb'. apply Hc in Hc'.
    assert (Hav : a = Some (ErrInvalidBloom (HBloom h) rbloom))
      by (subst a; destruct (decide (rbloom <> HBloom h)); tauto).
    rewrite <- Hav. apply Hone; simpl; [auto|].
    intros r [<- | [<- | [<- | []]]]; auto.
  - intros _ Ha' Hne Hc'. apply Ha in Ha'. apply Hc in Hc'.
    assert (Hbv : b = Some (ErrInvalidReceiptRoot (ReceiptHash h) receiptSha))
      by (subst b; destruct (decide (receiptSha <> ReceiptHash h)); tauto).
    rewrite <- Hbv. apply Hone; simpl; [auto|].
    intros r [<- | [<- | [<- | []]]]; auto.
  - intros _ Ha' Hb' Hne. apply Ha in Ha'. apply Hb in Hb'.
    assert (Hcv : c = Some (ErrInvalidMerkleRoot (Root h) root))
      by (subst c; destruct (decide (Root h <> root)); tauto).
    rewrite <- Hcv. apply Hone; simpl; [auto|].
    intros r [<- | [<- | [<- | []]]]; auto.
Qed.

End ValidateStateFacts.

Lemma ValidateState_succeeds_iff_witness :
  Sample.validateState (Sample.validator Sample.chainReady Sample.engineOk)
    (Sample.executedBlock 42 2 3 21000) 42 [1; 2] 21000 [2; 0; 1]%nat = None /\
  Sample.validateState (Sample.validator Sample.chainReady Sample.engineOk)
    (Sample.executedBlock 42 2 7 21000) 42 [1; 2] 21000 [2; 0; 1]%nat
    = Some (ErrInvalidBloom 7 3).
Proof.
  split.
  - pose proof (ValidateState_succeeds_iff
                  Sample.receiptHash Sample.createBloom Sample.intermediateRoot
                  Sample.isEIP158
                  (Sample.validator Sample.chainReady Sample.engineOk)
                  (Sample.executedBlock 42 2 3 21000) 42 [1; 2] 21000
                  [2; 0; 1]%nat schedule_201) as Hthm.
    cbv zeta in Hthm. destruct Hthm as [Hiff _].
    apply Hiff. repeat split.
  - pose proof (ValidateState_succeeds_iff
                  Sample.receiptHash Sample.createBloom Sample.intermediateRoot
                  Sample.isEIP158
                  (Sample.validator Sample.chainReady Sample.engineOk)
                  (Sample.executedBlock 42 2 7 21000) 42 [1; 2] 21000
                  [2; 0; 1]%nat schedule_201) as Hthm.
    cbv zeta in Hthm. destruct Hthm as (_ & _ & Hbloom & _).
    apply Hbloom; vm_compute; (reflexivity || discriminate).
Defined.

(** ** The remote-work API *)

Section APIFacts.

Import Inihash InihashSpec.

(** A call that has returned needs no further communication. *)
Lemma run_return {R : Type} (env : list comm) (r : R) : run env (Return r) = Returned r.
Proof. destruct env; reflexivity. Qed.

Lemma races_select_inv {R : Type} (cases : list (scase (proc R))) :
  races_shutdown (Select cases) ->
  existsb is_exit_case cases = true /\ (forall c, In c cases -> case_races c).
Proof. intros Hr. inversion Hr; subst. auto. Qed.

Lemma races_send_inv {R T : Type} (c : chan T) (v : T) (body : proc R) :
  case_races (SendCase c v body) -> races_shutdown body.
Proof. intros Hr. inversion Hr; subst. assumption. Qed.

(** A call that races everywhere still does so at the [select] it waits
    in after its request is handed over. *)
Lemma races_after_send {R : Type} (p : proc R) (cases : list (scase (proc R))) :
  races_shutdown p -> after_send p = Some (Select cases) ->
  has_exit (Select cases) = true.
Proof.
  intros Hr Hb. destruct p as [r | [| [T c v k | T c k] rest]]; try discriminate.
  simpl in Hb. injection Hb as ->.
  apply races_select_inv in Hr. destruct Hr as [_ Hall].
  specialize (Hall (SendCase c v (Select cases)) (or_introl eq_refl)).
  apply races_send_inv, races_select_inv in Hall. simpl. tauto.
Qed.

(** C5 (as written, refuted). Once [SubmitHashrate] has handed over its
    request it waits in a [select] whose only case is the reply on [done]:
    that hand-off does not race against the shutdown signal, and while no
    reply is delivered the call stays blocked. *)
Lemma SubmitHashrate_reply_wait_not_raced :
  ~ races_shutdown (SubmitHashrate apiRemote 100 1) /\
  (exists cases, after_send (SubmitHashrate apiRemote 100 1) = Some (Select cases) /\
                 has_exit (Select cases) = false) /\
  run [fires 0 None] (SubmitHashrate apiRemote 100 1) = Blocked.
Proof.
  split; [|split].
  - intros Hr. pose proof (races_after_send _ _ Hr eq_refl) as Hexit. discriminate.
  - eexists. split; reflexivity.
  - reflexivity.
Qed.

(** C5 (amended). In [GetWork], [SubmitWork] and [SubmitHashrate] the
    sending of the request races against the shutdown signal, and a call
    that loses this race returns the stopped error, respectively false. The
    awaiting of the reply has no shutdown case. [SubmitHashrate] returns true
    exactly when its request was handed over and the reply on [done] was
    received, false exactly when the shutdown signal won the race against
    the sending, is blocked while the reply has not arrived, and returns
    false without any hand-off when there is no remote sealer. *)
Theorem handoffs_and_shutdown (r : remoteSealer) (nonce hash rate id : Z)
    (env : list comm) :
  let api := mkAPI (mkInihash (Some r)) in
  (has_exit (GetWork api) = true /\
   has_exit (SubmitWork api nonce hash) = true /\
   has_exit (SubmitHashrate api rate id) = true) /\
  (exists w1 w2 w3,
     after_send (GetWork api) = Some (Select w1) /\
     after_send (SubmitWork api nonce hash) = Some (Select w2) /\
     after_send (SubmitHashrate api rate id) = Some (Select w3) /\
     has_exit (Select w1) = false /\ has_exit (Select w2) = false /\
     has_exit (Select w3) = false) /\
  (forall e rest, fired e = 1%nat ->
     run (e :: rest) (GetWork api) = Returned (zeroWork, Some errEthashStopped) /\
     run (e :: rest) (SubmitWork api nonce hash) = Returned false /\
     run (e :: rest) (SubmitHashrate api rate id) = Returned false) /\
  (run env (SubmitHashrate api rate id) = Returned true <->
     exists e1 e2 rest, env = e1 :: e2 :: rest /\ fired e1 = 0%nat /\ fired e2 = 0%nat) /\
  (run env (SubmitHashrate api rate id) = Returned false <->
     exists e rest, env = e :: rest /\ fired e = 1%nat) /\
  (forall e, fired e = 0%nat -> run [e] (SubmitHashrate api rate id) = Blocked) /\
  SubmitHashrate (mkAPI (mkInihash None)) rate id = Return false.
Proof.
  cbv zeta.
  split; [repeat split|].
  split; [do 3 eexists; repeat split|].
  split.
  { intros e rest He. simpl. rewrite He. simpl. rewrite !run_return. auto. }
  split; [|split; [|split; [|reflexivity]]].
  - split.
    + destruct env as [|e1 rest]; simpl; [discriminate|].
      destruct (fired e1) as [|[|n]] eqn:H1; simpl; rewrite ?run_return;
        try discriminate; [|destruct n; discriminate].
      destruct rest as [|e2 rest]; simpl; [discriminate|].
      destruct (fired e2) as [|n] eqn:H2; simpl.
      * intros _. exists e1, e2, rest. auto.
      * destruct n; discriminate.
    + intros (e1 & e2 & rest & -> & H1 & H2). simpl. rewrite H1. simpl.
      rewrite H2. apply run_return.
  - split.
    + destruct env as [|e1 rest]; simpl; [discriminate|].
      destruct (fired e1) as [|[|n]] eqn:H1; simpl.
      * destruct rest as [|e2 rest]; simpl; [discriminate|].
        destruct (fired e2) as [|[|n]]; simpl; rewrite ?run_return; discriminate.
      * intros _. exists e1, rest. auto.
      * destruct n; discriminate.
    + intros (e & rest & -> & He). simpl. rewrite He. apply run_return.
  - intros e He. simpl. rewrite He. reflexivity.
Qed.

Lemma handoffs_and_shutdown_witness :
  run [fires 0 None; fires 0 None] (SubmitHashrate apiRemote 100 1) = Returned true /\
  run [fires 1 None] (SubmitHashrate apiRemote 100 1) = Returned false.
Proof.
  pose proof (handoffs_and_shutdown (RemoteSealer 0) 0 0 100 1
                [fires 0 None; fires 0 None]) as Hthm.
  cbv zeta in Hthm. destruct Hthm as (_ & _ & Hexit & Htrue & _).
  split.
  - apply Htrue. do 3 eexists. repeat split.
  - apply (Hexit (fires 1 None) [] eq_refl).
Defined.

(** C8 (as written, refuted). The request is handed over and the sealer
    loop answers on the error conduit: [GetWork] returns that error, which
    is neither a work package nor one of the two listed errors. *)
Lemma GetWork_returns_loop_error :
  run [fires 0 None; fires 1 (Some errNoMiningWork)] (GetWork apiRemote)
    = Returned (zeroWork, Some errNoMiningWork) /\
  ~ listed_outcome apiRemote (zeroWork, Some errNoMiningWork).
Proof.
  split; [reflexivity|].
  intros [[w Hw] | [[Hnone _] | Hstop]]; discriminate.
Qed.

(** C8 (amended). Without a remote sealer [GetWork] returns the
    unsupported error at once, with no hand-off. Otherwise whatever it
    returns is the stopped error when the shutdown signal won the race
    against the sending of the request, or, the request handed over, the
    work package received on the result conduit with a nil error, or the
    zero package with the value received on the error conduit. *)
Theorem GetWork_outcomes (api : API) (env : list comm) :
  (remote (inihash api) = None ->
   GetWork api = Return (zeroWork, Some (ErrorString "not supported"))) /\
  (forall res, run env (GetWork api) = Returned res ->
     (remote (inihash api) = None /\
      res = (zeroWork, Some (ErrorString "not supported"))) \/
     (exists e rest, env = e :: rest /\ fired e = 1%nat /\
        res = (zeroWork, Some errEthashStopped)) \/
     (exists e1 e2 rest, env = e1 :: e2 :: rest /\
        fired e1 = 0%nat /\ fired e2 = 0%nat /\
        res = (deliver e2 Work (reply workCh), None)) \/
     (exists e1 e2 rest, env = e1 :: e2 :: rest /\
        fired e1 = 0%nat /\ fired e2 = 1%nat /\
        res = (zeroWork, deliver e2 (option error) (reply errc)))).
Proof.
  unfold GetWork. destruct (remote (inihash api)) as [r|].
  - split; [discriminate|]. intros res.
    destruct env as [|e1 rest]; simpl; [discriminate|].
    destruct (fired e1) as [|[|n]] eqn:H1; simpl.
    + destruct rest as [|e2 rest]; simpl; [discriminate|].
      destruct (fired e2) as [|[|n]] eqn:H2; simpl; rewrite ?run_return.
      * intros [= <-]. right; right; left. exists e1, e2, rest. auto.
      * intros [= <-]. right; right; right. exists e1, e2, rest. auto.
      * destruct n; discriminate.
    + rewrite run_return. intros [= <-]. right; left. exists e1, rest. auto.
    + destruct n; discriminate.
  - split; [reflexivity|]. intros res. rewrite run_return. intros [= <-]. auto.
Qed.

Lemma GetWork_outcomes_witness :
  GetWork apiLocal = Return (zeroWork, Some (ErrorString "not supported")) /\
  run [fires 0 None; fires 0 None] (GetWork apiRemote) = Returned (samplePackage, None).
Proof.
  split.
  - apply (proj1 (GetWork_outcomes apiLocal [])). reflexivity.
  - reflexivity.
Defined.

End APIFacts.

(** * Further properties *)

(** ** [CalcGasLimit] as a controller *)

Section GasLimitControl.

Variables GasLimitBoundDivisor MinGasLimit : Z.
Context {Hash Bloom Transaction : Type}.
Implicit Types parent : Block Hash Bloom Transaction.

Local Abbreviation calc := (CalcGasLimit GasLimitBoundDivisor MinGasLimit).
Local Abbreviation decayOf := (decay GasLimitBoundDivisor).
Local Abbreviation contribOf := (contrib GasLimitBoundDivisor).

(** With the parent limit at least the divisor and no overflow, the two
    recomputed values are the plain sum and difference. *)
Lemma moves_plain parentGasLimit :
  0 < GasLimitBoundDivisor <= parentGasLimit ->
  parentGasLimit + decayOf parentGasLimit < U64.modulus ->
  0 <= decayOf parentGasLimit < parentGasLimit /\
  U64.add parentGasLimit (decayOf parentGasLimit)
    = parentGasLimit + decayOf parentGasLimit /\
  U64.sub parentGasLimit (decayOf parentGasLimit)
    = parentGasLimit - decayOf parentGasLimit.
Proof.
  intros Hd Hsum.
  pose proof (wrap_range (U64.div parentGasLimit GasLimitBoundDivisor - 1)) as [Hnn _].
  assert (Hlt : parentGasLimit < U64.modulus) by (unfold decay, U64.sub in Hsum; lia).
  destruct (decay_plain GasLimitBoundDivisor parentGasLimit Hd Hlt) as [_ Hdec].
  split; [exact Hdec|].
  unfold U64.add, U64.sub. rewrite !wrap_small by lia. auto.
Qed.

(** From twice the divisor upwards the decay is at least one. *)
Lemma decay_positive parentGasLimit :
  0 < GasLimitBoundDivisor ->
  2 * GasLimitBoundDivisor <= parentGasLimit ->
  parentGasLimit < U64.modulus ->
  1 <= decayOf parentGasLimit.
Proof.
  intros Hd H2 Hlt.
  destruct (decay_plain GasLimitBoundDivisor parentGasLimit) as [Heq _]; [lia | lia |].
  rewrite Heq.
  assert (2 <= parentGasLimit / GasLimitBoundDivisor)
    by (apply Z.div_le_lower_bound; lia).
  lia.
Qed.

Lemma contrib_nonneg parentGasUsed :
  0 < GasLimitBoundDivisor -> 0 <= contribOf parentGasUsed.
Proof.
  intros Hd. unfold contrib, U64.div, U64.add.
  apply Z.div_pos; [|exact Hd]. apply wrap_range.
Qed.

(** X1. Bounded rate: with the parent limit at least the divisor and the
    minimum gas limit, and no overflow, the next limit is at least the
    parent limit less the decay and at most the larger of the parent limit
    plus the decay and the unclamped limit. *)
Theorem CalcGasLimit_rate_bound parent gasFloor gasCeil :
  0 < GasLimitBoundDivisor <= BGasLimit parent ->
  MinGasLimit <= BGasLimit parent ->
  BGasLimit parent + decayOf (BGasLimit parent) < U64.modulus ->
  BGasLimit parent - decayOf (BGasLimit parent) + contribOf (BGasUsed parent)
    < U64.modulus ->
  BGasLimit parent - decayOf (BGasLimit parent)
    <= calc parent gasFloor gasCeil
    <= Z.max (BGasLimit parent + decayOf (BGasLimit parent))
             (BGasLimit parent - decayOf (BGasLimit parent)
              + contribOf (BGasUsed parent)).
Proof.
  intros Hd Hmin Hsum Hraw.
  destruct (moves_plain _ Hd Hsum) as (Hdec & Hup & Hdown).
  pose proof (contrib_nonneg (BGasUsed parent) (proj1 Hd)) as Hc.
  assert (Hrawv : U64.add (U64.sub (BGasLimit parent) (decayOf (BGasLimit parent)))
                          (contribOf (BGasUsed parent))
                  = BGasLimit parent - decayOf (BGasLimit parent)
                    + contribOf (BGasUsed parent)).
  { rewrite Hdown. unfold U64.add. apply wrap_small. lia. }
  rewrite CalcGasLimit_clamps. cbv zeta. rewrite Hrawv, Hup, Hdown.
  destruct (Z.ltb_spec
              (Z.max (BGasLimit parent - decayOf (BGasLimit parent)
                      + contribOf (BGasUsed parent)) MinGasLimit) gasFloor).
  - lia.
  - destruct (Z.ltb_spec gasCeil
                (Z.max (BGasLimit parent - decayOf (BGasLimit parent)
                        + contribOf (BGasUsed parent)) MinGasLimit)); lia.
Qed.

(** X2. With the floor at most the ceiling and no overflow, a parent block
    that used more gas never gives a lower next limit. *)
Theorem CalcGasLimit_monotone_in_gas_used parent parent' gasFloor gasCeil :
  0 < GasLimitBoundDivisor ->
  gasFloor <= gasCeil ->
  BGasLimit parent = BGasLimit parent' ->
  0 <= BGasUsed parent <= BGasUsed parent' ->
  BGasUsed parent' + BGasUsed parent' / 2 < U64.modulus ->
  U64.sub (BGasLimit parent') (decayOf (BGasLimit parent'))
    + contribOf (BGasUsed parent') < U64.modulus ->
  calc parent gasFloor gasCeil <= calc parent' gasFloor gasCeil.
Proof.
  intros Hd Hfc Hlim Hused Hnowrap Hraw.
  assert (Hhalf : BGasUsed parent / 2 <= BGasUsed parent' / 2)
    by (apply Z.div_le_mono; lia).
  assert (Hhalf0 : 0 <= BGasUsed parent / 2) by (apply Z.div_pos; lia).
  assert (Hc : 0 <= contribOf (BGasUsed parent) <= contribOf (BGasUsed parent')).
  { split; [now apply contrib_nonneg|].
    unfold contrib, U64.div, U64.add. rewrite !wrap_small by lia.
    apply Z.div_le_mono; lia. }
  rewrite !CalcGasLimit_clamps. cbv zeta. rewrite Hlim.
  pose proof (wrap_range (BGasLimit parent' - decayOf (BGasLimit parent'))) as Hs.
  fold (U64.sub (BGasLimit parent') (decayOf (BGasLimit parent'))) in Hs.
  unfold U64.in_range in Hs.
  set (s := U64.sub (BGasLimit parent') (decayOf (BGasLimit parent'))) in *.
  set (up := U64.add (BGasLimit parent') (decayOf (BGasLimit parent'))).
  set (c := contribOf (BGasUsed parent)) in *.
  set (c' := contribOf (BGasUsed parent')) in *.
  assert (Hr : U64.add s c = s + c) by (unfold U64.add; apply wrap_small; lia).
  assert (Hr' : U64.add s c' = s + c') by (unfold U64.add; apply wrap_small; lia).
  rewrite Hr, Hr'. clearbody up.
  destruct (Z.ltb_spec (Z.max (s + c) MinGasLimit) gasFloor);
    destruct (Z.ltb_spec (Z.max (s + c') MinGasLimit) gasFloor);
    destruct (Z.ltb_spec gasCeil (Z.max (s + c) MinGasLimit));
    destruct (Z.ltb_spec gasCeil (Z.max (s + c') MinGasLimit)); lia.
Qed.

(** X3. A parent limit below the floor (floor at most ceiling, parent limit
    at least twice the divisor, no overflow) is followed by a strictly
    higher limit that does not exceed the ceiling. *)
Theorem CalcGasLimit_rises_below_floor parent gasFloor gasCeil :
  0 < GasLimitBoundDivisor ->
  2 * GasLimitBoundDivisor <= BGasLimit parent ->
  BGasLimit parent + decayOf (BGasLimit parent) < U64.modulus ->
  BGasLimit parent < gasFloor <= gasCeil ->
  BGasLimit parent < calc parent gasFloor gasCeil <= gasCeil.
Proof.
  intros Hd H2 Hsum Hrange.
  destruct (moves_plain (BGasLimit parent)) as (Hdec & Hup & Hdown); [lia | lia |].
  assert (Hpos : 1 <= decayOf (BGasLimit parent)) by (apply decay_positive; lia).
  rewrite CalcGasLimit_clamps. cbv zeta. rewrite Hup, Hdown.
  set (l := Z.max _ MinGasLimit). clearbody l.
  destruct (Z.ltb_spec l gasFloor); [lia|].
  destruct (Z.ltb_spec gasCeil l); lia.
Qed.

(** X4. A parent limit above the ceiling (floor at most ceiling, parent
    limit at least twice the divisor, no overflow) is followed by a strictly
    lower limit that does not fall below the floor. *)
Theorem CalcGasLimit_falls_above_ceiling parent gasFloor gasCeil :
  0 < GasLimitBoundDivisor ->
  2 * GasLimitBoundDivisor <= BGasLimit parent ->
  BGasLimit parent + decayOf (BGasLimit parent) < U64.modulus ->
  gasFloor <= gasCeil < BGasLimit parent ->
  gasFloor <= calc parent gasFloor gasCeil < BGasLimit parent.
Proof.
  intros Hd H2 Hsum Hrange.
  destruct (moves_plain (BGasLimit parent)) as (Hdec & Hup & Hdown); [lia | lia |].
  assert (Hpos : 1 <= decayOf (BGasLimit parent)) by (apply decay_positive; lia).
  rewrite CalcGasLimit_clamps. cbv zeta. rewrite Hup, Hdown.
  set (l := Z.max _ MinGasLimit). clearbody l.
  destruct (Z.ltb_spec l gasFloor); [lia|].
  destruct (Z.ltb_spec gasCeil l); lia.
Qed.

(** X5. A parent limit between floor and ceiling (at least the divisor, no
    overflow) is followed by a limit between floor and ceiling. *)
Theorem CalcGasLimit_stays_in_range parent gasFloor gasCeil :
  0 < GasLimitBoundDivisor <= BGasLimit parent ->
  BGasLimit parent + decayOf (BGasLimit parent) < U64.modulus ->
  gasFloor <= BGasLimit parent <= gasCeil ->
  gasFloor <= calc parent gasFloor gasCeil <= gasCeil.
Proof.
  intros Hd Hsum Hrange.
  destruct (moves_plain _ Hd Hsum) as (Hdec & Hup & Hdown).
  rewrite CalcGasLimit_clamps. cbv zeta. rewrite Hup, Hdown.
  set (l := Z.max _ MinGasLimit). clearbody l.
  destruct (Z.ltb_spec l gasFloor); [lia|].
  destruct (Z.ltb_spec gasCeil l); lia.
Qed.

(** X6. With floor and ceiling set to one target, a parent limit no further
    than the decay from the target (at least the divisor, no overflow) is
    followed by exactly the target, whatever gas the parent used. *)
Theorem CalcGasLimit_reaches_target parent target :
  0 < GasLimitBoundDivisor <= BGasLimit parent ->
  BGasLimit parent + decayOf (BGasLimit parent) < U64.modulus ->
  BGasLimit parent - decayOf (BGasLimit parent) <= target
    <= BGasLimit parent + decayOf (BGasLimit parent) ->
  calc parent target target = target.
Proof.
  intros Hd Hsum Hnear.
  destruct (moves_plain _ Hd Hsum) as (Hdec & Hup & Hdown).
  rewrite CalcGasLimit_clamps. cbv zeta. rewrite Hup, Hdown.
  set (l := Z.max _ MinGasLimit). clearbody l.
  destruct (Z.ltb_spec l target); [lia|].
  destruct (Z.ltb_spec target l); lia.
Qed.

End GasLimitControl.

(** Closed arithmetic side conditions, by evaluation. *)
Ltac by_evaluation :=
  vm_compute; repeat match goal with |- _ /\ _ => split end;
  solve [reflexivity | discriminate | intros; discriminate].

Lemma CalcGasLimit_rate_bound_witness :
  10000000 - decay 1024 10000000
    <= CalcGasLimit 1024 5000 (gasBlock 9000000 10000000) 8000000 12000000
    <= Z.max (10000000 + decay 1024 10000000)
             (10000000 - decay 1024 10000000 + contrib 1024 9000000).
Proof.
  apply (CalcGasLimit_rate_bound 1024 5000 (gasBlock 9000000 10000000) 8000000 12000000);
    by_evaluation.
Defined.

Lemma CalcGasLimit_monotone_in_gas_used_witness :
  CalcGasLimit 1024 5000 (gasBlock 3000000 10000000) 8000000 12000000
    <= CalcGasLimit 1024 5000 (gasBlock 9000000 10000000) 8000000 12000000.
Proof.
  apply (CalcGasLimit_monotone_in_gas_used 1024 5000
           (gasBlock 3000000 10000000) (gasBlock 9000000 10000000) 8000000 12000000);
    by_evaluation.
Defined.

Lemma CalcGasLimit_rises_below_floor_witness :
  6000000 < CalcGasLimit 1024 5000 (gasBlock 0 6000000) 8000000 12000000 <= 12000000.
Proof.
  apply (CalcGasLimit_rises_below_floor 1024 5000 (gasBlock 0 6000000) 8000000 12000000);
    by_evaluation.
Defined.

Lemma CalcGasLimit_falls_above_ceiling_witness :
  8000000 <= CalcGasLimit 1024 5000 (gasBlock 20000000 20000000) 8000000 12000000
          < 20000000.
Proof.
  apply (CalcGasLimit_falls_above_ceiling 1024 5000 (gasBlock 20000000 20000000)
           8000000 12000000);
    by_evaluation.
Defined.

Lemma CalcGasLimit_stays_in_range_witness :
  8000000 <= CalcGasLimit 1024 5000 (gasBlock 10000000 10000000) 8000000 10001000
          <= 10001000.
Proof.
  apply (CalcGasLimit_stays_in_range 1024 5000 (gasBlock 10000000 10000000)
           8000000 10001000);
    by_evaluation.
Defined.

Lemma CalcGasLimit_reaches_target_witness :
  CalcGasLimit 1024 5000 (gasBlock 123456 9995000) 10000000 10000000 = 10000000.
Proof.
  apply (CalcGasLimit_reaches_target 1024 5000 (gasBlock 123456 9995000) 10000000);
    by_evaluation.
Defined.

(** ** The first-failure collector *)

Section CollectorFacts.

Context {Hash Bloom : Type}.
Implicit Types rs l : list (option (@error Hash Bloom)).
Implicit Types fs : list (unit -> option (@error Hash Bloom)).

(** Whatever is delivered was returned by one of the goroutines. *)
Lemma arrivals_In sched fs r :
  In r (arrivals sched fs) -> r = None \/ exists f, In f fs /\ f tt = r.
Proof.
  unfold arrivals. rewrite in_map_iff. intros (i & Hi & _).
  destruct (nth_error fs i) as [f|] eqn:Hf; [|now left].
  right. exists f. split; [now apply nth_error_In with i | exact Hi].
Qed.

(** If the deliveries all are an element of [l] and all of [l] is nil or
    [x], with [x] among them, the loop yields [x]. *)
Lemma recvLoop_settled rs l x :
  Permutation rs l -> In x l -> (forall r, In r l -> r = None \/ r = x) ->
  recvLoop (length l) rs = x.
Proof.
  intros Hp Hx Hall.
  assert (Hlen : (length rs <= length l)%nat) by (rewrite (Permutation_length Hp); lia).
  assert (Hin : forall r, In r rs <-> In r l).
  { intros r. split; apply Permutation_in; [exact Hp | now apply Permutation_sym]. }
  destruct x as [e|].
  - apply recvLoop_only; [exact Hlen | now apply Hin |].
    intros e' He'. apply Hin, Hall in He'. destruct He'; congruence.
  - apply recvLoop_all_None. intros r Hr. apply Hin, Hall in Hr. tauto.
Qed.

(** Two delivery orders of the same results, no two of which are different
    errors, give the same outcome. *)
Lemma recvLoop_order_irrelevant rs1 rs2 l :
  Permutation rs1 l -> Permutation rs2 l ->
  (forall x y, In x l -> In y l -> x = None \/ y = None \/ x = y) ->
  recvLoop (length l) rs1 = recvLoop (length l) rs2.
Proof.
  intros Hp1 Hp2 Hagree.
  assert (Hlen : (length rs1 <= length l)%nat)
    by (rewrite (Permutation_length Hp1); lia).
  destruct (recvLoop (length l) rs1) as [e|] eqn:H1; symmetry.
  - apply recvLoop_Some_In in H1. apply (Permutation_in _ Hp1) in H1.
    apply recvLoop_settled; [exact Hp2 | exact H1 |].
    intros r Hr. destruct (Hagree (Some e) r H1 Hr) as [He | [Hr' | Heq]];
      [discriminate | now left | now right].
  - apply recvLoop_all_None. intros r Hr. apply (Permutation_in _ Hp2) in Hr.
    apply (recvLoop_None_all _ rs1 Hlen H1).
    now apply (Permutation_in _ (Permutation_sym Hp1)).
Qed.

(** X7. The collector loop over any list of checks, under any schedule:
    it returns nil exactly when every check returns nil, any error it
    returns is the error of one of the checks, and when no two checks fail
    with different errors the outcome is the same under every schedule. *)
Theorem collector_first_failure fs sched :
  is_schedule (length fs) sched ->
  (recvLoop (length fs) (arrivals sched fs) = None <->
     forall f, In f fs -> f tt = None) /\
  (forall e, recvLoop (length fs) (arrivals sched fs) = Some e ->
     exists f, In f fs /\ f tt = Some e) /\
  ((forall f g, In f fs -> In g fs -> f tt = None \/ g tt = None \/ f tt = g tt) ->
   forall sched', is_schedule (length fs) sched' ->
     recvLoop (length fs) (arrivals sched' fs) = recvLoop (length fs) (arrivals sched fs)).
Proof.
  intros Hs.
  pose proof (arrivals_schedule fs sched Hs) as Hp.
  assert (Hlen : (length (arrivals sched fs) <= length fs)%nat).
  { rewrite (Permutation_length Hp), length_map. lia. }
  split; [split|split].
  - intros Hnone f Hf.
    apply (recvLoop_None_all _ _ Hlen Hnone).
    apply (Permutation_in _ (Permutation_sym Hp)).
    apply in_map_iff. eauto.
  - intros Hall. apply recvLoop_all_None. intros r Hr.
    apply arrivals_In in Hr. destruct Hr as [-> | (f & Hf & <-)]; auto.
  - intros e He. apply recvLoop_Some_In, arrivals_In in He.
    destruct He as [He | He]; [discriminate | exact He].
  - intros Hagree sched' Hs'.
    pose proof (arrivals_schedule fs sched' Hs') as Hp'.
    rewrite <- (length_map (fun f => f tt) fs).
    apply recvLoop_order_irrelevant; [exact Hp' | exact Hp |].
    intros x y Hx Hy. apply in_map_iff in Hx, Hy.
    destruct Hx as (f & <- & Hf). destruct Hy as (g & <- & Hg). auto.
Qed.

End CollectorFacts.

Lemma collector_first_failure_witness :
  recvLoop 2 (arrivals [0; 1]%nat
                [ (fun _ => Some (@ErrEngine Z Z 4)); (fun _ => None) ])
  = recvLoop 2 (arrivals [1; 0]%nat
                  [ (fun _ => Some (@ErrEngine Z Z 4)); (fun _ => None) ]).
Proof.
  destruct (collector_first_failure
              [ (fun _ => Some (@ErrEngine Z Z 4)); (fun _ => None) ] [1; 0]%nat)
    as (_ & _ & Hsame).
  - apply perm_swap.
  - apply Hsame.
    + simpl. intros f g [<- | [<- | []]] [<- | [<- | []]]; auto.
    + apply Permutation_refl.
Defined.

(** ** More on [ValidateBody] *)

Section ValidateBodyMore.

Context {Hash Bloom Transaction ChainConfig : Type}.
Context `{EqDecision Hash}.
Variable BlockHash : Block Hash Bloom Transaction -> Hash.
Variable CalcUncleHash : list (Header Hash Bloom) -> Hash.
Variable DeriveShaTxs : list Transaction -> Hash.

Implicit Types v : @BlockValidator Hash Bloom Transaction ChainConfig.
Implicit Types block : Block Hash Bloom Transaction.
Implicit Types e : @error Hash Bloom.

Local Abbreviation validateBody := (ValidateBody BlockHash CalcUncleHash DeriveShaTxs).
Local Abbreviation isKnown := (known BlockHash).

(** X8. When the transaction root matches or the parent is known with
    state, so that at most one of the goroutines' checks can fail, the
    result of [ValidateBody] does not depend on the order of delivery. *)
Theorem ValidateBody_order_irrelevant v block s1 s2 :
  is_schedule 3 s1 -> is_schedule 3 s2 ->
  DeriveShaTxs (transactions block) = TxHash (header block)
    \/ parentWithState v block = true ->
  validateBody v block s1 = validateBody v block s2.
Proof.
  intros Hs1 Hs2 Hone.
  destruct (ValidateBody_cases BlockHash CalcUncleHash DeriveShaTxs v block s1 Hs1)
    as [[Hk Hr] | [[Hk (e0 & Hv & Hr)] | [(Hk & Hv & Hu & Hr) | (Hk & Hv & Hu & rs1 & Hr & Hp1)]]];
    rewrite Hr; clear Hr.
  - symmetry. now apply ValidateBody_known.
  - symmetry. now apply ValidateBody_engine_error.
  - symmetry. now apply ValidateBody_uncle_root.
  - destruct (ValidateBody_dispatched BlockHash CalcUncleHash DeriveShaTxs
                v block s2 Hs2 Hk Hv Hu) as (rs2 & Hr2 & Hp2).
    rewrite Hr2.
    destruct (recvLoop_three rs1 _ _ Hp1) as (_ & _ & Htx1 & Hanc1).
    destruct (recvLoop_three rs2 _ _ Hp2) as (_ & _ & Htx2 & Hanc2).
    destruct Hone as [Ht | Ha].
    + apply txRootCheck_None in Ht. now rewrite Htx1, Htx2.
    + apply ancestorCheck_None in Ha. now rewrite Hanc1, Hanc2.
Qed.


(** X12. Unless the engine itself hands back [ErrKnownBlock], the call
    returns [ErrKnownBlock] exactly for blocks already known with state. *)
Theorem ValidateBody_known_block_iff v block sched :
  is_schedule 3 sched ->
  VerifyUncles (engine v) (bc v) block <> Some ErrKnownBlock ->
  (validateBody v block sched = Some ErrKnownBlock <-> isKnown v block = true).
Proof.
  intros Hs Hengine.
  destruct (ValidateBody_cases BlockHash CalcUncleHash DeriveShaTxs v block sched Hs)
    as [[Hk Hr] | [[Hk (e0 & Hv & Hr)] | [(Hk & Hv & Hu & Hr) | (Hk & Hv & Hu & rs & Hr & Hp)]]];
    rewrite Hr; clear Hr.
  - tauto.
  - split; [intros [= ->]; contradiction | congruence].
  - split; [discriminate | congruence].
  - split; [|congruence]. intros He.
    destruct (recvLoop_three rs _ _ Hp) as (_ & Hsome & _).
    destruct (Hsome _ He) as [Ht | Ha].
    + apply txRootCheck_Some in Ht. destruct Ht as [Ht _]. discriminate.
    + apply ancestorCheck_Some in Ha. destruct Ha as [_ [[? _] | [? _]]]; discriminate.
Qed.

End ValidateBodyMore.

Lemma ValidateBody_order_irrelevant_witness :
  Sample.validateBody (Sample.validator Sample.chainPruned Sample.engineOk)
    (Sample.blockWith 0 0) [2; 0; 1]%nat
  = Sample.validateBody (Sample.validator Sample.chainPruned Sample.engineOk)
      (Sample.blockWith 0 0) [1; 2; 0]%nat.
Proof.
  apply (ValidateBody_order_irrelevant Sample.blockHash Sample.uncleHash Sample.txHash
           (Sample.validator Sample.chainPruned Sample.engineOk)
           (Sample.blockWith 0 0) _ _ schedule_201 schedule_120).
  left. reflexivity.
Defined.


Lemma ValidateBody_known_block_iff_witness :
  Sample.validateBody (NewBlockValidator tt Sample.chainKnown Sample.engineOk)
    (Sample.blockWith 0 0) [2; 0; 1]%nat = Some ErrKnownBlock.
Proof.
  apply (ValidateBody_known_block_iff Sample.blockHash Sample.uncleHash Sample.txHash
           (NewBlockValidator tt Sample.chainKnown Sample.engineOk)
           (Sample.blockWith 0 0) _ schedule_201);
    [discriminate | reflexivity].
Defined.

(** ** More on [ValidateState] *)

Section ValidateStateMore.

Context {Hash Bloom Transaction Receipt StateDB ChainConfig : Type}.
Context `{EqDecision Hash} `{EqDecision Bloom}.
Variable DeriveShaReceipts : list Receipt -> Hash.
Variable CreateBloom : list Receipt -> Bloom.
Variable IntermediateRoot : StateDB -> bool -> Hash.
Variable IsEIP158 : ChainConfig -> Z -> bool.

Implicit Types v : @BlockValidator Hash Bloom Transaction ChainConfig.
Implicit Types block : Block Hash Bloom Transaction.

Local Abbreviation validateState :=
  (ValidateState DeriveShaReceipts CreateBloom IntermediateRoot IsEIP158).

(** X9. Whatever the order of delivery, an error returned by
    [ValidateState] names a field that does mismatch, with the declared and
    the recomputed value; errors other than the gas-used one are returned
    only when the gas used matches. *)
Theorem ValidateState_error_sound v block statedb receipts usedGas sched e :
  validateState v block statedb receipts usedGas sched = Some e ->
  let h := header block in
  let rbloom := CreateBloom receipts in
  let receiptSha := DeriveShaReceipts receipts in
  let root := IntermediateRoot statedb (IsEIP158 (config v) (Number h)) in
  (e = ErrInvalidGasUsed (BGasUsed block) usedGas /\ BGasUsed block <> usedGas) \/
  (BGasUsed block = usedGas /\
   ((e = ErrInvalidBloom (HBloom h) rbloom /\ rbloom <> HBloom h) \/
    (e = ErrInvalidReceiptRoot (ReceiptHash h) receiptSha /\ receiptSha <> ReceiptHash h) \/
    (e = ErrInvalidMerkleRoot (Root h) root /\ Root h <> root))).
Proof.
  intros Hres h rbloom receiptSha root.
  unfold ValidateState in Hres. cbv zeta in Hres. fold h rbloom receiptSha root in Hres.
  destruct (decide (BGasUsed block <> usedGas)) as [Hg | Hg].
  { left. injection Hres as <-. auto. }
  right. split; [destruct (decide (BGasUsed block = usedGas)); tauto|].
  apply recvLoop_Some_In, arrivals_In in Hres.
  destruct Hres as [Hres | (f & Hf & Hres)]; [discriminate|].
  simpl in Hf. destruct Hf as [<- | [<- | [<- | []]]].
  - destruct (decide (rbloom <> HBloom h)); [|discriminate].
    injection Hres as <-. auto.
  - destruct (decide (receiptSha <> ReceiptHash h)); [|discriminate].
    injection Hres as <-. auto.
  - destruct (decide (Root h <> root)); [|discriminate].
    injection Hres as <-. auto.
Qed.

(** X10. When at most one of bloom, receipt root and state root
    mismatches, the result of [ValidateState] does not depend on the order
    of delivery. *)
Theorem ValidateState_order_irrelevant v block statedb receipts usedGas s1 s2 :
  is_schedule 3 s1 -> is_schedule 3 s2 ->
  let h := header block in
  let bloomOk := CreateBloom receipts = HBloom h in
  let receiptOk := DeriveShaReceipts receipts = ReceiptHash h in
  let rootOk := Root h = IntermediateRoot statedb (IsEIP158 (config v) (Number h)) in
  (bloomOk /\ receiptOk) \/ (bloomOk /\ rootOk) \/ (receiptOk /\ rootOk) ->
  validateState v block statedb receipts usedGas s1
  = validateState v block statedb receipts usedGas s2.
Proof.
  intros Hs1 Hs2 h bloomOk receiptOk rootOk Hmost.
  unfold ValidateState. cbv zeta.
  destruct (decide (BGasUsed block <> usedGas)); [reflexivity|].
  match goal with
  | |- recvLoop _ (arrivals s1 ?fs) = _ =>
      pose proof (arrivals_schedule fs s1 Hs1) as Hp1;
      pose proof (arrivals_schedule fs s2 Hs2) as Hp2;
      set (l := map (fun f : unit -> option (@error Hash Bloom) => f tt) fs) in *;
      change (length fs) with (length l)
  end.
  apply recvLoop_order_irrelevant; [exact Hp1 | exact Hp2 |].
  subst l. cbn [map]. fold h.
  unfold bloomOk, receiptOk, rootOk in Hmost.
  intros x y Hx Hy. simpl in Hx, Hy.
  destruct (decide (CreateBloom receipts <> HBloom h));
    destruct (decide (DeriveShaReceipts receipts <> ReceiptHash h));
    destruct (decide (Root h <> IntermediateRoot statedb
                                  (IsEIP158 (config v) (Number h))));
    try (exfalso; tauto);
    destruct Hx as [<- | [<- | [<- | []]]]; destruct Hy as [<- | [<- | [<- | []]]];
    auto.
Qed.

End ValidateStateMore.

Lemma ValidateState_error_sound_witness :
  (7 <> 3)%Z /\
  Sample.validateState (Sample.validator Sample.chainReady Sample.engineOk)
    (Sample.executedBlock 42 2 7 21000) 42 [1; 2] 21000 [2; 0; 1]%nat
    = Some (ErrInvalidBloom 7 3).
Proof.
  assert (Hres : Sample.validateState (Sample.validator Sample.chainReady Sample.engineOk)
                   (Sample.executedBlock 42 2 7 21000) 42 [1; 2] 21000 [2; 0; 1]%nat
                 = Some (ErrInvalidBloom 7 3)) by reflexivity.
  split; [|exact Hres].
  pose proof (ValidateState_error_sound
                Sample.receiptHash Sample.createBloom Sample.intermediateRoot
                Sample.isEIP158 _ _ _ _ _ _ _ Hres) as Hsound.
  cbv zeta in Hsound.
  destruct Hsound as [[Hgas _] | [_ [[_ Hne] | [[Hrec _] | [Hroot _]]]]];
    [discriminate | | discriminate | discriminate].
  intros Heq. apply Hne. vm_compute. vm_compute in Heq. congruence.
Defined.

Lemma ValidateState_order_irrelevant_witness :
  Sample.validateState (Sample.validator Sample.chainReady Sample.engineOk)
    (Sample.executedBlock 42 2 7 21000) 42 [1; 2] 21000 [2; 0; 1]%nat
  = Sample.validateState (Sample.validator Sample.chainReady Sample.engineOk)
      (Sample.executedBlock 42 2 7 21000) 42 [1; 2] 21000 [1; 2; 0]%nat.
Proof.
  apply (ValidateState_order_irrelevant
           Sample.receiptHash Sample.createBloom Sample.intermediateRoot
           Sample.isEIP158
           (Sample.validator Sample.chainReady Sample.engineOk)
           (Sample.executedBlock 42 2 7 21000) 42 [1; 2] 21000 _ _
           schedule_201 schedule_120).
  right; right. split; reflexivity.
Defined.

(** ** More on the remote-work API *)

Section APIMore.

Import Inihash InihashSpec.

(** X13. [SubmitWork] returns true exactly when its request was handed
    over and the sealer loop answered nil on the error conduit; it returns
    false exactly when there is no remote sealer, when the shutdown signal
    won the race against the sending, or when the loop answered an error. *)
Theorem SubmitWork_outcomes (api : API) (nonce hash : Z) (env : list comm) :
  (run env (SubmitWork api nonce hash) = Returned true <->
     remote (inihash api) <> None /\
     exists e1 e2 rest, env = e1 :: e2 :: rest /\
       fired e1 = 0%nat /\ fired e2 = 0%nat /\
       deliver e2 (option error) (reply errc) = None) /\
  (run env (SubmitWork api nonce hash) = Returned false <->
     remote (inihash api) = None \/
     (exists e rest, env = e :: rest /\ fired e = 1%nat) \/
     (exists e1 e2 rest err, env = e1 :: e2 :: rest /\
        fired e1 = 0%nat /\ fired e2 = 0%nat /\
        deliver e2 (option error) (reply errc) = Some err)).
Proof.
  unfold SubmitWork. destruct (remote (inihash api)) as [r|].
  2:{ rewrite run_return. split.
      - split; [discriminate | intros [Hne _]; now destruct Hne].
      - split; [now left | reflexivity]. }
  split.
  - split.
    + intros Hres. split; [discriminate|].
      destruct env as [|e1 rest]; simpl in Hres; [discriminate|].
      destruct (fired e1) as [|[|n]] eqn:H1; simpl in Hres; rewrite ?run_return in Hres;
        [| discriminate | destruct n; discriminate].
      destruct rest as [|e2 rest]; simpl in Hres; [discriminate|].
      destruct (fired e2) as [|n] eqn:H2; simpl in Hres; [|destruct n; discriminate].
      rewrite run_return in Hres.
      exists e1, e2, rest. repeat split; try assumption.
      destruct (deliver e2 (option error) (reply errc)); [discriminate | reflexivity].
    + intros (_ & e1 & e2 & rest & -> & H1 & H2 & Hd). simpl. rewrite H1. simpl.
      rewrite H2. simpl. rewrite run_return, Hd. reflexivity.
  - split.
    + intros Hres. right.
      destruct env as [|e1 rest]; simpl in Hres; [discriminate|].
      destruct (fired e1) as [|[|n]] eqn:H1; simpl in Hres; rewrite ?run_return in Hres;
        [| left; eauto | destruct n; discriminate].
      destruct rest as [|e2 rest]; simpl in Hres; [discriminate|].
      destruct (fired e2) as [|n] eqn:H2; simpl in Hres; [|destruct n; discriminate].
      rewrite run_return in Hres. right.
      destruct (deliver e2 (option error) (reply errc)) as [err|] eqn:Hd; [|discriminate].
      exists e1, e2, rest, err. auto.
    + intros [Hnone | [(e & rest & -> & He) | (e1 & e2 & rest & err & -> & H1 & H2 & Hd)]].
      * discriminate.
      * simpl. rewrite He. simpl. apply run_return.
      * simpl. rewrite H1. simpl. rewrite H2. simpl. rewrite run_return, Hd. reflexivity.
Qed.

(** X14. Whenever [GetWork] returns an error, the package it returns with
    it is the zero value. *)
Theorem GetWork_error_zero_package (api : API) (env : list comm)
    (res : Work * option error) :
  run env (GetWork api) = Returned res -> snd res <> None -> fst res = zeroWork.
Proof.
  destruct res as [w [err|]]; [intros Hres _; simpl | intros _ Hne; now destruct Hne].
  revert Hres. unfold GetWork. destruct (remote (inihash api)) as [r|].
  2:{ rewrite run_return. now intros [= <- _]. }
  destruct env as [|e1 rest]; simpl; [discriminate|].
  destruct (fired e1) as [|[|n]]; simpl; rewrite ?run_return;
    [| now intros [= <- _] | destruct n; discriminate].
  destruct rest as [|e2 rest]; simpl; [discriminate|].
  destruct (fired e2) as [|[|n]]; simpl; rewrite ?run_return;
    [discriminate | now intros [= <- _] | destruct n; discriminate].
Qed.

(** X15. A call hands off at most twice: the outcome of [GetWork],
    [SubmitWork] and [SubmitHashrate] is settled by the first two
    communications. *)
Theorem calls_settled_by_two_handoffs (api : API) (nonce hash rate id : Z)
    (env : list comm) :
  run env (GetWork api) = run (firstn 2 env) (GetWork api) /\
  run env (SubmitWork api nonce hash) = run (firstn 2 env) (SubmitWork api nonce hash) /\
  run env (SubmitHashrate api rate id)
    = run (firstn 2 env) (SubmitHashrate api rate id).
Proof.
  unfold GetWork, SubmitWork, SubmitHashrate.
  destruct (remote (inihash api)) as [r|]; [|rewrite !run_return; auto].
  destruct env as [|e1 [|e2 rest]]; [auto | auto |].
  cbn [firstn]. simpl.
  destruct (fired e1) as [|[|n]]; simpl; rewrite ?run_return; auto;
    [|destruct n; auto].
  destruct (fired e2) as [|[|n]]; simpl; rewrite ?run_return; auto;
    destruct n; auto.
Qed.

End APIMore.

Lemma SubmitWork_outcomes_witness :
  Inihash.run [InihashSpec.fires 0 None; InihashSpec.fires 0 None]
    (Inihash.SubmitWork InihashSpec.apiRemote 42 7) = Inihash.Returned true.
Proof.
  apply (proj1 (SubmitWork_outcomes InihashSpec.apiRemote 42 7
                  [InihashSpec.fires 0 None; InihashSpec.fires 0 None])).
  split; [discriminate|]. do 3 eexists. repeat split.
Defined.

Lemma GetWork_error_zero_package_witness :
  exists res,
    Inihash.run [InihashSpec.fires 0 None;
                 InihashSpec.fires 1 (Some InihashSpec.errNoMiningWork)]
      (Inihash.GetWork InihashSpec.apiRemote) = Inihash.Returned res /\
    snd res = Some InihashSpec.errNoMiningWork /\
    fst res = Inihash.zeroWork.
Proof.
  eexists. split; [reflexivity|]. split; [reflexivity|].
  apply (GetWork_error_zero_package InihashSpec.apiRemote
           [InihashSpec.fires 0 None;
            InihashSpec.fires 1 (Some InihashSpec.errNoMiningWork)]);
    [reflexivity | discriminate].
Defined.

(** ** Public DNS node lists *)

Section DNSFacts.

Import Params.

Context {Hash : Type} `{EqDecision Hash}.
Variable MainnetGenesisHash : Hash.

Lemma list_of_append (s t : string) :
  String.list_ascii_of_string (String.append s t)
  = String.list_ascii_of_string s ++ String.list_ascii_of_string t.
Proof. induction s as [|c s IH]; simpl; [reflexivity | now rewrite IH]. Qed.

Lemma list_ascii_inj (s t : string) :
  String.list_ascii_of_string s = String.list_ascii_of_string t -> s = t.
Proof.
  intros Heq. rewrite <- (String.string_of_list_ascii_of_string s),
    <- (String.string_of_list_ascii_of_string t). now rewrite Heq.
Qed.

(** X16. [KnownDNSNetwork] returns the empty string exactly for a genesis
    hash other than the main network's. *)
Theorem KnownDNSNetwork_empty_iff (genesis : Hash) (protocol : string) :
  KnownDNSNetwork MainnetGenesisHash genesis protocol = EmptyString
  <-> genesis <> MainnetGenesisHash.
Proof.
  unfold KnownDNSNetwork.
  destruct (decide (genesis = MainnetGenesisHash)) as [Heq | Hne].
  - split; [|contradiction]. simpl. discriminate.
  - tauto.
Qed.

(** X17. For the main network's genesis hash different protocols get
    different list addresses, and every address is the DNS prefix, the
    protocol and the suffix [.mainnet.ethdisco.net] in this order. *)
Theorem KnownDNSNetwork_protocol_inj (p1 p2 : string) :
  KnownDNSNetwork MainnetGenesisHash MainnetGenesisHash p1
  = String.append dnsPrefix (String.append p1 ".mainnet.ethdisco.net") /\
  (KnownDNSNetwork MainnetGenesisHash MainnetGenesisHash p1
   = KnownDNSNetwork MainnetGenesisHash MainnetGenesisHash p2 -> p1 = p2).
Proof.
  assert (Hshape : forall p,
            String.list_ascii_of_string (KnownDNSNetwork MainnetGenesisHash MainnetGenesisHash p)
            = String.list_ascii_of_string dnsPrefix
              ++ String.list_ascii_of_string p
              ++ String.list_ascii_of_string ".mainnet.ethdisco.net").
  { intros p. unfold KnownDNSNetwork.
    destruct (decide (MainnetGenesisHash = MainnetGenesisHash)); [|contradiction].
    cbv zeta. rewrite !list_of_append, <- !app_assoc. reflexivity. }
  split.
  - apply list_ascii_inj. rewrite Hshape, !list_of_append. reflexivity.
  - intros Heq. apply (f_equal String.list_ascii_of_string) in Heq.
    rewrite !Hshape in Heq.
    apply app_inv_head, app_inv_tail in Heq. now apply list_ascii_inj.
Qed.

End DNSFacts.
